(** * Risk and position-sizing engine of the Don trading framework

    The engine is documented as Python snippets in the guides
    ([docs/guides/transfer-learning.md], [docs/guides/enhanced-evaluation.md]
    and the statistical-arbitrage guide).  This development embeds those
    snippets and states what they compute.

    Two number models are used, each in a module of its own.

    - [Exact]: a float is an exact rational ([Q], compared with [==]).
      An outcome that is not a finite number (a NaN such as the mean of an
      empty selection or 0/0, or a raised [ZeroDivisionError] / [ValueError])
      is [None]; the z-scores of the signal generators, which may be
      infinite, are rationals extended with the infinities and NaN.  All
      algebraic statements live here.
    - [Binary64]: a float is an IEEE-754 binary64 value ([PrimFloat]), with
      its NaN and infinities and the hardware square root.  The statements
      that depend on the standard deviation, on NaN propagation or on the
      rounding of a sum or a quotient live here. *)

From Stdlib Require Import String.
From Stdlib Require Import QArith Qminmax Qround Qabs Lia Lqa List Bool ZArith.
From Stdlib Require Import Floats.
From Stdlib Require Uint63.
Import ListNotations.

Set Warnings "-inexact-float".

Module Exact.

Local Open Scope Q_scope.

(** ** Outcomes *)

(** [yields o q]: the computation returned a finite number equal to [q]. *)
Definition yields (o : option Q) (q : Q) : Prop :=
  match o with
  | Some r => r == q
  | None => False
  end.

Definition bind {A B : Type} (m : option A) (f : A -> option B) : option B :=
  match m with
  | Some a => f a
  | None => None
  end.

Notation "'let?' x ':=' m 'in' k" := (bind m (fun x => k))
  (at level 10, x name, m at level 100, k at level 200).

(** Python's [a / b] on floats: [ZeroDivisionError] when [b] is zero. *)
Definition py_div (a b : Q) : option Q :=
  if Qeq_bool b 0 then None else Some (a / b).

(** Python's builtin [min(a, b)]: the second argument only when it is
    strictly smaller. *)
Definition py_min (a b : Q) : Q := if Qlt_le_dec b a then b else a.

(** Python's builtin [max(a, b)]: the second argument only when it is
    strictly larger. *)
Definition py_max (a b : Q) : Q := if Qlt_le_dec a b then b else a.

(** ** Position sizing ([transfer-learning.md], "Risk-Adjusted Sizing") *)

(** The fields of [RiskMetrics] the guide reads. *)
Record RiskMetrics : Type := mkRiskMetrics {
  var : Q;
  es : Q;
  volatility : Q;
  drawdown : Q;
  sharpe_ratio : Q;
  model_confidence : Q
}.

Section PositionSizing.

(** The names [adjust_position_size] reads from its enclosing scope. *)
Variables target_vol max_drawdown min_confidence : Q.

(** [vol_factor = min(1.0, target_vol / metrics.volatility)] *)
Definition vol_factor (metrics : RiskMetrics) : option Q :=
  let? ratio := py_div target_vol (volatility metrics) in
  Some (py_min 1 ratio).

(** [dd_factor = 1.0 - (metrics.drawdown / max_drawdown)] *)
Definition dd_factor (metrics : RiskMetrics) : option Q :=
  let? ratio := py_div (drawdown metrics) max_drawdown in
  Some (1 - ratio).

(** [conf_factor = max(0.0, (metrics.model_confidence - min_confidence) /
                            (1.0 - min_confidence))] *)
Definition conf_factor (metrics : RiskMetrics) : option Q :=
  let? ratio := py_div (model_confidence metrics - min_confidence)
                       (1 - min_confidence) in
  Some (py_max 0 ratio).

(** [return base_size * vol_factor * dd_factor * conf_factor] *)
Definition adjust_position_size (base_size : Q) (metrics : RiskMetrics)
  : option Q :=
  let? vf := vol_factor metrics in
  let? df := dd_factor metrics in
  let? cf := conf_factor metrics in
  Some (base_size * vf * df * cf).

End PositionSizing.

(** The drawdown factor in the words of the specification, floored at zero;
    compared below with [dd_factor], which is the guide's. *)
Definition dd_factor_floored (max_drawdown : Q) (metrics : RiskMetrics) : Q :=
  Qmax 0 (1 - drawdown metrics / max_drawdown).


(** The same metrics under another volatility, everything else kept. *)
Definition with_volatility (metrics : RiskMetrics) (v : Q) : RiskMetrics :=
  mkRiskMetrics (var metrics) (es metrics) v (drawdown metrics)
                (sharpe_ratio metrics) (model_confidence metrics).

(** ** numpy on one-dimensional arrays *)

Definition Qltb (a b : Q) : bool := negb (Qle_bool b a).

Fixpoint Qsum (a : list Q) : Q :=
  match a with
  | [] => 0
  | x :: t => x + Qsum t
  end.

Definition Qlen (a : list Q) : Q := inject_Z (Z.of_nat (length a)).

(** [np.mean(a)]: NaN on an empty array. *)
Definition np_mean (a : list Q) : option Q :=
  match a with
  | [] => None
  | _ :: _ => Some (Qsum a / Qlen a)
  end.

Fixpoint insert_sorted (x : Q) (l : list Q) : list Q :=
  match l with
  | [] => [x]
  | y :: t => if Qle_bool x y then x :: l else y :: insert_sorted x t
  end.

(** [np.sort(a)] *)
Definition np_sort (a : list Q) : list Q := fold_right insert_sorted [] a.

(** [np.percentile(a, q)] with numpy's default method, linear interpolation:
    the value at the virtual index [(n - 1) * q / 100] of the sorted array,
    interpolated between the two neighbouring order statistics.  A [q]
    outside [0, 100] raises [ValueError]; an empty array has no percentile. *)
Definition np_percentile (a : list Q) (q : Q) : option Q :=
  if negb (Qle_bool 0 q && Qle_bool q 100) then None
  else
    match np_sort a with
    | [] => None
    | (x :: _) as s =>
        let n := length s in
        let virtual_index := inject_Z (Z.of_nat (n - 1)) * (q / 100) in
        let previous := Z.to_nat (Qfloor virtual_index) in
        let next := Nat.min (previous + 1) (n - 1) in
        let gamma := virtual_index - inject_Z (Qfloor virtual_index) in
        Some (nth previous s x + (nth next s x - nth previous s x) * gamma)
    end.

(** ** Risk metrics *)

(** [transfer-learning.md]:
    [return -np.percentile(returns, (1 - confidence_level) * 100)] *)
Definition calculate_var (returns : list Q) (confidence_level : Q)
  : option Q :=
  option_map Qopp (np_percentile returns ((1 - confidence_level) * 100)).

(** [transfer-learning.md]: [return -np.mean(returns[returns < -var])] *)
Definition calculate_es (returns : list Q) (var : Q) : option Q :=
  option_map Qopp (np_mean (filter (fun r => Qltb r (- var)) returns)).

(** The dict [calculate_risk_metrics] returns, by key; [None] where the
    entry is not a finite number or the call raised before storing it. *)
Record RiskDict : Type := mkRiskDict {
  get_var : option Q;
  get_es : option Q
}.

(** [enhanced-evaluation.md]:
    [metrics['var'] = np.percentile(returns, (1-confidence_level)*100)]
    [metrics['es'] = returns[returns <= metrics['var']].mean()]
    A comparison with NaN selects nothing, so a NaN VaR gives a NaN ES. *)
Definition calculate_risk_metrics (returns : list Q) (confidence_level : Q)
  : RiskDict :=
  let v := np_percentile returns ((1 - confidence_level) * 100) in
  let e := let? v' := v in
           np_mean (filter (fun r => Qle_bool r v') returns) in
  mkRiskDict v e.

(** VaR in the words of the specification: the negated lower percentile. *)
Definition var_negated_percentile (returns : list Q) (confidence_level : Q)
  : option Q :=
  option_map Qopp (np_percentile returns ((1 - confidence_level) * 100)).

(** The return series of the specification's first scenario, and a constant
    one. *)
Definition scenario1_returns : list Q := [0.01; -0.02; 0.015; -0.01; 0.005].
Definition constant_returns : list Q := [0.01; 0.01].

(** ** Drawdowns *)

Fixpoint cumprod_from (acc : Q) (a : list Q) : list Q :=
  match a with
  | [] => []
  | x :: t => acc * x :: cumprod_from (acc * x) t
  end.

(** [np.cumprod(a)], the running product. *)
Definition np_cumprod (a : list Q) : list Q := cumprod_from 1 a.

Fixpoint accumulate_from (m : Q) (a : list Q) : list Q :=
  match a with
  | [] => []
  | x :: t => py_max m x :: accumulate_from (py_max m x) t
  end.

(** [np.maximum.accumulate(a)] and pandas' [cummax()], the running maximum. *)
Definition maximum_accumulate (a : list Q) : list Q :=
  match a with
  | [] => []
  | x :: t => x :: accumulate_from x t
  end.

(** An array whose entries may fail to be finite numbers. *)
Definition array : Type := list (option Q).

(** All entries when each is a finite number. *)
Fixpoint all_finite (a : array) : option (list Q) :=
  match a with
  | [] => Some []
  | None :: _ => None
  | Some x :: t => let? l := all_finite t in Some (x :: l)
  end.

(** The entries that are finite numbers. *)
Fixpoint skip_nan (a : array) : list Q :=
  match a with
  | [] => []
  | None :: t => skip_nan t
  | Some x :: t => x :: skip_nan t
  end.

Fixpoint minimum_from (m : Q) (a : list Q) : Q :=
  match a with
  | [] => m
  | x :: t => minimum_from (py_min m x) t
  end.

(** [a.min()] of a numpy array: NaN as soon as one entry is NaN, and a
    [ValueError] on an empty array. *)
Definition np_min (a : array) : option Q :=
  match all_finite a with
  | Some (x :: t) => Some (minimum_from x t)
  | _ => None
  end.

(** [a.mean()] of a numpy array: NaN as soon as one entry is NaN. *)
Definition np_array_mean (a : array) : option Q :=
  let? l := all_finite a in np_mean l.

(** [s.min()] of a pandas Series: NaN entries are skipped. *)
Definition pd_min (a : array) : option Q :=
  match skip_nan a with
  | x :: t => Some (minimum_from x t)
  | [] => None
  end.

(** [enhanced-evaluation.md], the local [drawdowns] of [analyze_drawdowns]:
    [cumulative_returns = np.cumprod(1 + returns)]
    [rolling_max = np.maximum.accumulate(cumulative_returns)]
    [drawdowns = (cumulative_returns - rolling_max) / rolling_max]
    Division by a zero running maximum leaves an entry that is not a
    finite number. *)
Definition drawdowns (returns : list Q) : array :=
  let cumulative_returns := np_cumprod (map (Qplus 1) returns) in
  let rolling_max := maximum_accumulate cumulative_returns in
  map (fun cm => py_div (fst cm - snd cm) (snd cm))
      (combine cumulative_returns rolling_max).

(** The entries of the dict of [analyze_drawdowns] that the guide defines;
    the third, ['drawdown_duration'], calls a helper the guide leaves out
    and does not enter the other two. *)
Record DrawdownDict : Type := mkDrawdownDict {
  get_max_drawdown : option Q;
  get_avg_drawdown : option Q
}.

(** ['max_drawdown': drawdowns.min(), 'avg_drawdown': drawdowns.mean()] *)
Definition analyze_drawdowns (returns : list Q) : DrawdownDict :=
  mkDrawdownDict (np_min (drawdowns returns))
                 (np_array_mean (drawdowns returns)).

(** The statistical-arbitrage guide, entry ['max_drawdown'] of the dict of
    [calculate_metrics]:
    [((1 + returns).cumprod() / (1 + returns).cumprod().cummax() - 1).min()] *)
Definition calculate_metrics_max_drawdown (returns : list Q) : option Q :=
  let cumulative := np_cumprod (map (Qplus 1) returns) in
  pd_min (map (fun cm => let? ratio := py_div (fst cm) (snd cm) in
                         Some (ratio - 1))
              (combine cumulative (maximum_accumulate cumulative))).

(** The average drawdown in the words of the specification: the mean of the
    negative entries of the curve only. *)
Definition avg_negative_excursions (curve : list Q) : option Q :=
  np_mean (filter (fun d => Qltb d 0) curve).

(** A gain of 10% followed by a loss of 50%. *)
Definition gain_then_loss : list Q := [0.1; -0.5].

(** ** Statistical-arbitrage signals *)

(** A numpy scalar without rounding: a finite value, an infinity or NaN.
    The z-scores are numpy scalars, so a division by zero gives an
    infinity or NaN and raises nothing. *)
Inductive xfloat : Type :=
| Fin (q : Q)
| PInf
| NInf
| NaN.

(** [xyields x q]: [x] is the finite number [q]. *)
Definition xyields (x : xfloat) (q : Q) : Prop :=
  match x with
  | Fin r => r == q
  | _ => False
  end.

(** [abs(x)] *)
Definition x_abs (x : xfloat) : xfloat :=
  match x with
  | Fin q => Fin (Qabs q)
  | PInf | NInf => PInf
  | NaN => NaN
  end.

(** [x > t]; a comparison with NaN is false. *)
Definition x_gt (x : xfloat) (t : Q) : bool :=
  match x with
  | Fin q => Qltb t q
  | PInf => true
  | NInf | NaN => false
  end.

(** [x / t] *)
Definition x_div (x : xfloat) (t : Q) : xfloat :=
  match x with
  | Fin a =>
      if Qeq_bool t 0
      then (if Qeq_bool a 0 then NaN else if Qltb 0 a then PInf else NInf)
      else Fin (a / t)
  | PInf => if Qltb t 0 then NInf else PInf
  | NInf => if Qltb t 0 then PInf else NInf
  | NaN => NaN
  end.

(** Python's builtin [min(x, c)]: [c] only when it is strictly smaller. *)
Definition x_min (x : xfloat) (c : Q) : xfloat :=
  match x with
  | Fin q => if Qltb c q then Fin c else Fin q
  | PInf => Fin c
  | NInf => NInf
  | NaN => NaN
  end.

(** [np.sign] of a finite number. *)
Definition np_sign (q : Q) : Q :=
  if Qltb q 0 then -1 else if Qltb 0 q then 1 else 0.

(** [np.sign(x)] *)
Definition x_sign (x : xfloat) : xfloat :=
  match x with
  | Fin q => Fin (np_sign q)
  | PInf => Fin 1
  | NInf => Fin (-1)
  | NaN => NaN
  end.

(** [-x] *)
Definition x_opp (x : xfloat) : xfloat :=
  match x with
  | Fin q => Fin (- q)
  | PInf => NInf
  | NInf => PInf
  | NaN => NaN
  end.

Inductive StatArbType : Type :=
| PAIRS_TRADING
| MEAN_REVERSION.

Record PairAnalysis : Type := mkPairAnalysis {
  asset_a : string;
  asset_b : string;
  correlation : Q;
  hedge_ratio : Q;
  half_life : Q;
  zscore : Q
}.

Record TradingSignal : Type := mkTradingSignal {
  type : StatArbType;
  assets : list string;
  direction : list xfloat;
  confidence : xfloat
}.

(** [if abs(pair.zscore) > zscore_threshold: return TradingSignal(...)]
    with [confidence=min(abs(pair.zscore) / zscore_threshold, 1.0)];
    [return None] otherwise. *)
Definition generate_pairs_signal (pair : PairAnalysis) (zscore_threshold : Q)
  : option TradingSignal :=
  if x_gt (x_abs (Fin (zscore pair))) zscore_threshold
  then Some (mkTradingSignal
               PAIRS_TRADING
               [asset_a pair; asset_b pair]
               [Fin (- np_sign (zscore pair));
                Fin (np_sign (zscore pair) * hedge_ratio pair)]
               (x_min (x_div (x_abs (Fin (zscore pair))) zscore_threshold) 1))
  else None.

(** A named pandas Series of prices. *)
Record Series : Type := mkSeries {
  name : string;
  values : list Q
}.

Inductive py_result (A : Type) : Type :=
| Returns (a : A)
| RaisesIndexError.
Arguments Returns {A} a.
Arguments RaisesIndexError {A}.

Section MeanReversion.

(** The square root that pandas takes of the rolling variance. *)
Variable np_sqrt : Q -> Q.

(** The last [lookback] prices, when there are that many: pandas leaves NaN
    where the window is not full. *)
Definition last_window (prices : list Q) (lookback : nat)
  : option (list Q) :=
  if ((1 <=? lookback)%nat && (lookback <=? length prices)%nat)%bool
  then Some (skipn (length prices - lookback) prices)
  else None.

(** Last entry of [prices.rolling(lookback).mean()] *)
Definition rolling_mean_last (prices : list Q) (lookback : nat) : option Q :=
  let? w := last_window prices lookback in np_mean w.

(** Last entry of [prices.rolling(lookback).std()], the sample deviation
    with one degree of freedom removed; NaN for a window of one. *)
Definition rolling_std_last (prices : list Q) (lookback : nat) : option Q :=
  let? w := last_window prices lookback in
  let? m := np_mean w in
  if (lookback <=? 1)%nat then None
  else Some (np_sqrt (Qsum (map (fun x => (x - m) * (x - m)) w)
                      / inject_Z (Z.of_nat (lookback - 1)))).

(** [zscore = (prices - rolling_mean) / rolling_std], last entry. *)
Definition zscore_last (prices : list Q) (lookback : nat) : option xfloat :=
  match rev prices with
  | [] => None
  | p :: _ =>
      Some match rolling_mean_last prices lookback,
                 rolling_std_last prices lookback with
           | Some m, Some sd => x_div (Fin (p - m)) sd
           | _, _ => NaN
           end
  end.

(** [if abs(zscore.iloc[-1]) > zscore_threshold: return TradingSignal(...)]
    with [confidence=min(abs(zscore.iloc[-1]) / zscore_threshold, 1.0)];
    [return None] otherwise.  [iloc[-1]] of an empty Series raises. *)
Definition generate_mean_reversion_signal
  (prices : Series) (lookback : nat) (zscore_threshold : Q)
  : py_result (option TradingSignal) :=
  match zscore_last (values prices) lookback with
  | None => RaisesIndexError
  | Some z =>
      if x_gt (x_abs z) zscore_threshold
      then Returns (Some (mkTradingSignal
                            MEAN_REVERSION
                            [name prices]
                            [x_opp (x_sign z)]
                            (x_min (x_div (x_abs z) zscore_threshold) 1)))
      else Returns None
  end.

End MeanReversion.

(** An integer square root, exact on the perfect squares of the examples. *)
Definition isqrt (x : Q) : Q := inject_Z (Z.sqrt (Qfloor x)).

(** A pair one deviation from its mean, and eight quiet prices followed by
    a jump. *)
Definition pair_one_sigma : PairAnalysis :=
  mkPairAnalysis "BTC/USDT" "ETH/USDT" 0.9 1.5 10 1.
Definition pair_three_sigma : PairAnalysis :=
  mkPairAnalysis "BTC/USDT" "ETH/USDT" 0.9 1.5 10 3.
Definition prices_jump : Series :=
  mkSeries "BTC/USDT" [1; 1; 1; 1; 1; 1; 1; 1; 10].

(** Sample metrics, volatility at a target of 0.15: full confidence with a
    drawdown of twice a limit of 0.2, and of exactly that limit; a small
    drawdown with the confidence 0.5, under a floor of 0.6, and with the
    confidence 0.9. *)
Definition metrics_over_limit : RiskMetrics :=
  mkRiskMetrics 0.01 0.02 0.15 0.4 1 1.
Definition metrics_at_limit : RiskMetrics :=
  mkRiskMetrics 0.01 0.02 0.15 0.2 1 1.
Definition metrics_confident : RiskMetrics :=
  mkRiskMetrics 0.01 0.02 0.15 0.05 1 0.9.

(** ** Exceptions and dicts *)

Inductive exn : Type :=
| IndexError
| ValueError
| KeyError.

(** The outcome of a call that may raise. *)
Inductive outcome (A : Type) : Type :=
| Done (a : A)
| Raise (e : exn).
Arguments Done {A} a.
Arguments Raise {A} e.

(** A dict with string keys, as its items in insertion order. *)
Definition dict (V : Type) : Type := list (string * V).

(** [d[k]]; [None] stands for [KeyError]. *)
Fixpoint dict_get {V : Type} (d : dict V) (k : string) : option V :=
  match d with
  | [] => None
  | (k', v) :: t => if String.eqb k k' then Some v else dict_get t k
  end.

(** [a[i]] with Python's negative indices; [None] stands for
    [IndexError]. *)
Definition py_getitem (a : list Q) (i : Z) : option Q :=
  let n := Z.of_nat (length a) in
  if (0 <=? i)%Z then nth_error a (Z.to_nat i)
  else if (- n <=? i)%Z then nth_error a (Z.to_nat (n + i))
  else None.

(** ** Risk limit monitoring ([transfer-learning.md]) *)

(** [return (metrics.var <= limits['var_limit'] and
             metrics.drawdown <= limits['drawdown_limit'] and
             metrics.volatility <= limits['volatility_limit'])]
    [and] stops at the first false operand, so the later keys are read
    only when the earlier comparisons hold. *)
Definition check_risk_limits (metrics : RiskMetrics) (limits : dict Q)
  : outcome bool :=
  match dict_get limits "var_limit" with
  | None => Raise KeyError
  | Some var_limit =>
      if Qle_bool (var metrics) var_limit then
        match dict_get limits "drawdown_limit" with
        | None => Raise KeyError
        | Some drawdown_limit =>
            if Qle_bool (drawdown metrics) drawdown_limit then
              match dict_get limits "volatility_limit" with
              | None => Raise KeyError
              | Some volatility_limit =>
                  Done (Qle_bool (volatility metrics) volatility_limit)
              end
            else Done false
        end
      else Done false
  end.

(** ** Trend detection ([transfer-learning.md]) *)

Inductive trend_regime : Type :=
| ranging
| trending_up
| trending_down.

(** [x < t]; a comparison with NaN is false. *)
Definition x_lt (x : xfloat) (t : Q) : bool :=
  match x with
  | Fin q => Qltb q t
  | NInf => true
  | PInf | NaN => false
  end.

(** [trend = (prices[-1] - prices[-window]) / prices[-window]]
    [if abs(trend) < 0.02: return "ranging"]
    [return "trending_up" if trend > 0 else "trending_down"]
    The prices are numpy scalars: a zero reference price gives an
    infinite or NaN trend. *)
Definition detect_trend (prices : list Q) (window : Z)
  : outcome trend_regime :=
  match py_getitem prices (-1), py_getitem prices (- window) with
  | Some last, Some reference =>
      let trend := x_div (Fin (last - reference)) reference in
      Done (if x_lt (x_abs trend) 0.02 then ranging
            else if x_gt trend 0 then trending_up else trending_down)
  | _, _ => Raise IndexError
  end.

(** ** Total return ([enhanced-evaluation.md], [analyze_returns], and the
    statistical-arbitrage guide, [calculate_metrics]) *)

Fixpoint Qprod (a : list Q) : Q :=
  match a with
  | [] => 1
  | x :: t => x * Qprod t
  end.

(** [analyze_returns], entry ['total_return']:
    [metrics['total_return'] = np.prod(1 + returns) - 1].
    The next statement divides by [len(returns)]: on an empty array it
    raises [ZeroDivisionError] and no dict is returned. *)
Definition analyze_returns_total_return (returns : list Q) : option Q :=
  match returns with
  | [] => None
  | _ :: _ => Some (Qprod (map (Qplus 1) returns) - 1)
  end.

(** [calculate_metrics], entry ['total_return']:
    [(1 + returns).prod() - 1]; nothing raises on an empty Series. *)
Definition calculate_metrics_total_return (returns : list Q) : Q :=
  Qprod (map (Qplus 1) returns) - 1.

(** ** Trade and position analysis ([enhanced-evaluation.md]) *)

Fixpoint diff_from (previous : Q) (a : list Q) : list Q :=
  match a with
  | [] => []
  | x :: t => x - previous :: diff_from x t
  end.

(** [np.diff(a, prepend=0)] *)
Definition np_diff_prepend0 (a : list Q) : list Q := diff_from 0 a.

(** The entries under the true positions of a mask of the same length. *)
Fixpoint select_where (a : list Q) (mask : list bool) : option (list Q) :=
  match a, mask with
  | [], [] => Some []
  | x :: t, b :: m =>
      let? l := select_where t m in Some (if b then x :: l else l)
  | _, _ => None
  end.

(** [a[mask]] for a boolean mask.  numpy takes an empty mask on an array of
    any length and selects nothing; any other mask must have the length of
    the array, or numpy raises [IndexError]. *)
Definition mask_select (a : list Q) (mask : list bool) : option (list Q) :=
  match mask with
  | [] => Some []
  | _ :: _ => select_where a mask
  end.

Fixpoint maximum_from (m : Q) (a : list Q) : Q :=
  match a with
  | [] => m
  | x :: t => maximum_from (py_max m x) t
  end.

(** [np.mean(cond)] of a boolean array that is not empty: the share of
    true entries. *)
Definition share (cond : Q -> bool) (a : list Q) : Q :=
  Qlen (filter cond a) / Qlen a.

(** The dict of [analyze_trades], by key. *)
Record TradeDict : Type := mkTradeDict {
  get_num_trades : nat;
  get_win_rate : Q;
  get_avg_trade : Q;
  get_best_trade : Q;
  get_worst_trade : Q
}.

(** [trades = np.diff(positions, prepend=0)]
    [trade_returns = returns[trades != 0]]
    ['num_trades': len(trade_returns),
     'win_rate': np.mean(trade_returns > 0),
     'avg_trade': trade_returns.mean(),
     'best_trade': trade_returns.max(),
     'worst_trade': trade_returns.min()]
    On an empty selection the two means are NaN and [max()] raises
    [ValueError].  The mean is the exact one; numpy's agrees with it up to
    the rounding of the sum. *)
Definition analyze_trades (returns positions : list Q)
  : outcome TradeDict :=
  let trades := np_diff_prepend0 positions in
  match mask_select returns (map (fun t => negb (Qeq_bool t 0)) trades) with
  | None => Raise IndexError
  | Some [] => Raise ValueError
  | Some ((x :: t) as trade_returns) =>
      Done (mkTradeDict
              (length trade_returns)
              (share (fun r => Qltb 0 r) trade_returns)
              (Qsum trade_returns / Qlen trade_returns)
              (maximum_from x t)
              (minimum_from x t))
  end.

(** The dict of [analyze_positions], by key. *)
Record PositionDict : Type := mkPositionDict {
  get_avg_position : Q;
  get_max_position : Q;
  get_time_in_market : Q;
  get_long_ratio : Q;
  get_short_ratio : Q
}.

(** ['avg_position': np.abs(positions).mean(),
     'max_position': np.abs(positions).max(),
     'time_in_market': np.mean(positions != 0),
     'long_ratio': np.mean(positions > 0),
     'short_ratio': np.mean(positions < 0)]
    On an empty array the mean is NaN and [max()] raises [ValueError].
    The mean is the exact one; numpy's agrees with it up to the rounding of
    the sum. *)
Definition analyze_positions (positions : list Q) : outcome PositionDict :=
  match map Qabs positions with
  | [] => Raise ValueError
  | (x :: t) as magnitudes =>
      Done (mkPositionDict
              (Qsum magnitudes / Qlen magnitudes)
              (maximum_from x t)
              (share (fun p => negb (Qeq_bool p 0)) positions)
              (share (fun p => Qltb 0 p) positions)
              (share (fun p => Qltb p 0) positions))
  end.

(** ** Position sizes and risk monitoring of the statistical-arbitrage
    guide *)

(** The entries of an array of numpy scalars when all are finite. *)
Fixpoint finite_entries (a : list xfloat) : option (list Q) :=
  match a with
  | [] => Some []
  | Fin q :: t => let? l := finite_entries t in Some (q :: l)
  | _ :: _ => None
  end.

(** [sizes = [d * max_position for d in signal.direction]]
    [total_risk = sum(abs(s) for s in sizes)]
    [if total_risk > risk_limit:
         sizes = [s * risk_limit / total_risk for s in sizes]]
    [return sizes]
    [None]: no list of finite sizes comes back.  An infinite or NaN
    direction stays so through both steps, and a zero [total_risk] above a
    negative [risk_limit] divides each size, 0, by 0 (NaN for numpy
    scalars, [ZeroDivisionError] for Python floats); without directions
    nothing is divided.  Products, sum and quotients are exact here; the
    rounded ones are in [Binary64.calculate_position_sizes]. *)
Definition calculate_position_sizes (signal : TradingSignal)
  (max_position risk_limit : Q) : option (list Q) :=
  let? directions := finite_entries (direction signal) in
  let sizes := map (fun d => d * max_position) directions in
  let total_risk := Qsum (map Qabs sizes) in
  if Qltb risk_limit total_risk then
    if Qeq_bool total_risk 0 then
      match sizes with
      | [] => Some []
      | _ :: _ => None
      end
    else Some (map (fun s => s * risk_limit / total_risk) sizes)
  else Some sizes.

(** [s.iloc[-1]] *)
Definition iloc_last (s : list Q) : option Q := py_getitem s (-1).

(** [sum(pos * prices[asset].iloc[-1] for asset, pos in positions.items())]:
    a missing column raises [KeyError], an empty one [IndexError], at the
    first asset where it happens. *)
Fixpoint portfolio_value (positions : dict Q) (prices : dict (list Q))
  : outcome Q :=
  match positions with
  | [] => Done 0
  | (asset, pos) :: t =>
      match dict_get prices asset with
      | None => Raise KeyError
      | Some column =>
          match iloc_last column with
          | None => Raise IndexError
          | Some price =>
              match portfolio_value t prices with
              | Done v => Done (pos * price + v)
              | Raise e => Raise e
              end
          end
      end
  end.

(** The dict of [monitor_risks], by key. *)
Record RiskReport : Type := mkRiskReport {
  get_portfolio_value : Q;
  get_position_sizes : dict Q;
  get_risk_exposure : Q
}.

(** ['portfolio_value': portfolio_value, 'position_sizes': positions,
     'risk_exposure': sum(abs(p) for p in positions.values())] *)
Definition monitor_risks (positions : dict Q) (prices : dict (list Q))
  : outcome RiskReport :=
  match portfolio_value positions prices with
  | Done v =>
      Done (mkRiskReport v positions (Qsum (map Qabs (map snd positions))))
  | Raise e => Raise e
  end.

(** Limits of the guide's configuration; a rally and a slide of prices;
    positions held through four periods; a signal with two legs. *)
Definition limits_configured : dict Q :=
  [("var_limit"%string, 0.02); ("drawdown_limit"%string, 0.20);
   ("volatility_limit"%string, 0.03)].
Definition metrics_within_limits : RiskMetrics :=
  mkRiskMetrics 0.01 0.02 0.02 0.05 1 0.9.
Definition metrics_calmer : RiskMetrics :=
  mkRiskMetrics 0.005 0.01 0.01 0.02 1 0.9.
Definition prices_rally : list Q := [100; 101; 103; 106].
Definition returns_four : list Q := [0.01; -0.02; 0.03; 0.01].
Definition positions_four : list Q := [1; 1; 0; -1].
Definition signal_two_legs : TradingSignal :=
  mkTradingSignal PAIRS_TRADING ["BTC/USDT"%string; "ETH/USDT"%string]
                  [Fin (-1); Fin 1.5] (Fin 1).

End Exact.

Module Binary64.

Local Open Scope float_scope.

(** ** numpy on one-dimensional float64 arrays *)

(** [float(n)] for an array length. *)
Definition of_nat (n : nat) : float :=
  PrimFloat.of_uint63 (Uint63.of_Z (Z.of_nat n)).

(** [np.sum(a)], accumulated in index order. *)
Definition np_sum (a : list float) : float :=
  fold_left PrimFloat.add a 0.

(** [np.mean(a)]: the sum over the length, 0/0 = NaN on an empty array. *)
Definition np_mean (a : list float) : float :=
  np_sum a / of_nat (length a).

(** [np.std(a)], the population deviation
    [sqrt(mean(abs(a - a.mean()) ** 2))]. *)
Definition np_std (a : list float) : float :=
  let m := np_mean a in
  PrimFloat.sqrt (np_mean (map (fun x => (x - m) * (x - m)) a)).

(** [a[-window:]]: the last [window] entries, the whole array when it is
    shorter; [a[-0:]] is the whole array too. *)
Definition last_entries (window : nat) (a : list float) : list float :=
  if (window =? 0)%nat then a else skipn (length a - window) a.

(** [a[a < 0]] *)
Definition negative_entries (a : list float) : list float :=
  filter (fun r => r <? 0) a.

Fixpoint insert_sorted (x : float) (l : list float) : list float :=
  match l with
  | [] => [x]
  | y :: t => if x <=? y then x :: l else y :: insert_sorted x t
  end.

Definition np_sort (a : list float) : list float :=
  fold_right insert_sorted [] a.

(** The integer part of a non-negative finite float. *)
Definition floor_index (x : float) : nat :=
  match Prim2SF x with
  | S754_finite false m e =>
      Z.to_nat (if (0 <=? e)%Z then Z.shiftl (Z.pos m) e
                else Z.shiftr (Z.pos m) (- e))
  | _ => 0%nat
  end.

(** numpy's [_lerp(a, b, t)]. *)
Definition lerp (a b t : float) : float :=
  if 0.5 <=? t then b - (b - a) * (1 - t) else a + (b - a) * t.

(** [np.percentile(a, q)] of a non-empty array for [0 <= q <= 100], with
    the default linear interpolation at the virtual index
    [(n - 1) * (q / 100)]. *)
Definition np_percentile (a : list float) (q : float) : float :=
  let s := np_sort a in
  let n := length s in
  let virtual_index := of_nat (n - 1) * (q / 100) in
  let previous := floor_index virtual_index in
  let next := Nat.min (previous + 1) (n - 1) in
  let gamma := virtual_index - of_nat previous in
  lerp (nth previous s nan) (nth next s nan) gamma.

(** ** Volatility regimes ([transfer-learning.md]) *)

Inductive volatility_regime : Type :=
| high_volatility
| low_volatility
| medium_volatility.

(** [volatility = np.std(returns[-window:])]
    [if volatility > historical_vol * 1.5: return "high_volatility"]
    [elif volatility < historical_vol * 0.5: return "low_volatility"]
    [return "medium_volatility"]
    [historical_vol] is read from the enclosing scope. *)
Definition analyze_volatility (historical_vol : float)
  (returns : list float) (window : nat) : volatility_regime :=
  let volatility := np_std (last_entries window returns) in
  if historical_vol * 1.5 <? volatility then high_volatility
  else if volatility <? historical_vol * 0.5 then low_volatility
  else medium_volatility.

(** The tier in the words of the specification: the trailing deviation
    against the 33rd and 66th percentiles of a reference history of
    volatilities. *)
Definition volatility_tier_by_percentiles (reference : list float)
  (returns : list float) (vol_window : nat) : volatility_regime :=
  let volatility := np_std (last_entries vol_window returns) in
  if volatility <? np_percentile reference 33 then low_volatility
  else if np_percentile reference 66 <? volatility then high_volatility
  else medium_volatility.

(** ** Risk-adjusted returns ([enhanced-evaluation.md]) *)

(** The dict of [analyze_risk_adjusted_returns], by key. *)
Record RatioDict : Type := mkRatioDict {
  get_sharpe_ratio : float;
  get_sortino_ratio : float
}.

(** [excess_returns = returns - risk_free_rate]
    [sharpe_ratio = excess_returns.mean() / returns.std() * np.sqrt(252)]
    [downside_returns = returns[returns < 0]]
    [sortino_ratio = excess_returns.mean() / downside_returns.std()
                     * np.sqrt(252)] *)
Definition analyze_risk_adjusted_returns (returns : list float)
  (risk_free_rate : float) : RatioDict :=
  let excess_returns := map (fun r => r - risk_free_rate) returns in
  let downside_returns := negative_entries returns in
  mkRatioDict
    (np_mean excess_returns / np_std returns * PrimFloat.sqrt 252)
    (np_mean excess_returns / np_std downside_returns * PrimFloat.sqrt 252).

(** ** Trend detection ([transfer-learning.md]) *)

(** [a[i]] with Python's negative indices; [None] stands for
    [IndexError]. *)
Definition py_getitem (a : list float) (i : Z) : option float :=
  let n := Z.of_nat (length a) in
  if (0 <=? i)%Z then nth_error a (Z.to_nat i)
  else if (- n <=? i)%Z then nth_error a (Z.to_nat (n + i))
  else None.

(** [trend = (prices[-1] - prices[-window]) / prices[-window]]
    [if abs(trend) < 0.02: return "ranging"]
    [return "trending_up" if trend > 0 else "trending_down"] *)
Definition detect_trend (prices : list float) (window : Z)
  : Exact.outcome Exact.trend_regime :=
  match py_getitem prices (-1)%Z, py_getitem prices (- window)%Z with
  | Some last, Some reference =>
      let trend := (last - reference) / reference in
      Exact.Done (if PrimFloat.abs trend <? 0.02 then Exact.ranging
                  else if 0 <? trend then Exact.trending_up
                  else Exact.trending_down)
  | _, _ => Exact.Raise Exact.IndexError
  end.

(** ** Position sizes (statistical-arbitrage guide) *)

(** [sum(abs(s) for s in sizes)]: the sizes of a generated signal are numpy
    scalars, which Python's [sum] adds one by one from 0, in list order. *)
Definition total_magnitude (sizes : list float) : float :=
  fold_left PrimFloat.add (map PrimFloat.abs sizes) 0.

(** [sizes = [d * max_position for d in signal.direction]]
    [total_risk = sum(abs(s) for s in sizes)]
    [if total_risk > risk_limit:
         sizes = [s * risk_limit / total_risk for s in sizes]]
    [return sizes] *)
Definition calculate_position_sizes (direction : list float)
  (max_position risk_limit : float) : list float :=
  let sizes := map (fun d => d * max_position) direction in
  let total_risk := total_magnitude sizes in
  if risk_limit <? total_risk
  then map (fun s => s * risk_limit / total_risk) sizes
  else sizes.

(** Two gains; a gain and a loss; a swing of 4% and one of 2% either way;
    a reference history of volatilities from 1% to 5%; the directions of a
    pair sold against a hedge of 0.4. *)
Definition two_gains : list float := [0.01; 0.02].
Definition gain_and_loss : list float := [0.02; -0.01].
Definition swing : list float := [0.04; -0.04].
Definition calm : list float := [0.02; -0.02].
Definition reference_history : list float := [0.01; 0.02; 0.03; 0.04; 0.05].
Definition scenario1_returns : list float :=
  [0.01; -0.02; 0.015; -0.01; 0.005].
Definition sell_pair_directions : list float := [-1; 0.4].

End Binary64.

(** * Facts *)

Import Exact.
Local Open Scope Q_scope.

(** ** Outcomes and Python builtins *)

Lemma py_div_defined (a b : Q) : ~ b == 0 -> py_div a b = Some (a / b).
Proof.
  intros Hb. unfold py_div.
  destruct (Qeq_bool b 0) eqn:E; [|reflexivity].
  apply Qeq_bool_eq in E. contradiction.
Qed.


Lemma py_min_spec (a b : Q) :
  (b < a /\ py_min a b = b) \/ (a <= b /\ py_min a b = a).
Proof. unfold py_min. destruct (Qlt_le_dec b a); auto. Qed.

Lemma py_max_spec (a b : Q) :
  (a < b /\ py_max a b = b) \/ (b <= a /\ py_max a b = a).
Proof. unfold py_max. destruct (Qlt_le_dec a b); auto. Qed.


Lemma py_min_is_Qmin (a b : Q) : py_min a b == Qmin a b.
Proof.
  destruct (py_min_spec a b) as [[H ->]|[H ->]].
  - symmetry. apply Q.min_r. lra.
  - symmetry. apply Q.min_l. exact H.
Qed.

(** ** Position sizing *)

Section PositionSizingFacts.

Variables target_vol max_drawdown min_confidence : Q.

Local Abbreviation adjust :=
  (adjust_position_size target_vol max_drawdown min_confidence).

(** When no divisor is zero the function returns the product of the base
    size with the three factors. *)
Lemma adjust_position_size_defined (base_size : Q) (m : RiskMetrics) :
  ~ volatility m == 0 -> ~ max_drawdown == 0 -> ~ min_confidence == 1 ->
  adjust base_size m =
  Some (base_size
        * py_min 1 (target_vol / volatility m)
        * (1 - drawdown m / max_drawdown)
        * py_max 0 ((model_confidence m - min_confidence)
                    / (1 - min_confidence))).
Proof.
  intros Hv Hd Hc.
  unfold adjust, adjust_position_size, vol_factor, dd_factor, conf_factor.
  rewrite (py_div_defined _ _ Hv), (py_div_defined _ _ Hd).
  rewrite py_div_defined by (intro E; apply Hc; lra).
  reflexivity.
Qed.

Lemma dd_factor_defined (m : RiskMetrics) :
  ~ max_drawdown == 0 ->
  dd_factor max_drawdown m = Some (1 - drawdown m / max_drawdown).
Proof.
  intros Hd. unfold dd_factor. now rewrite (py_div_defined _ _ Hd).
Qed.




(** A larger positive divisor shrinks the magnitude of a quotient. *)
Lemma quotient_magnitude_antitone (t v v' : Q) :
  0 < v -> v <= v' -> Qabs (t / v') <= Qabs (t / v).
Proof.
  intros Hv Hvv'.
  assert (Hv' : 0 < v') by lra.
  assert (Hq : forall a, 0 <= a -> a / v' <= a / v).
  { intros a Ha. apply Qle_shift_div_r; [exact Hv'|].
    assert (Hx : 0 <= a / v) by (apply Qle_shift_div_l; lra).
    assert (Ex : a / v * v == a) by (field; lra).
    nra. }
  assert (Hn : forall a d, 0 < d -> 0 <= a -> 0 <= a / d).
  { intros a d Hd Ha. apply Qle_shift_div_l; lra. }
  destruct (Qlt_le_dec t 0) as [Ht|Ht].
  - assert (E : forall d, 0 < d -> Qabs (t / d) == (- t) / d).
    { intros d Hd.
      setoid_replace (t / d) with (- ((- t) / d)) by (field; lra).
      rewrite Qabs_opp. apply Qabs_pos. apply Hn; lra. }
    rewrite (E v Hv), (E v' Hv'). apply Hq. lra.
  - rewrite (Qabs_pos (t / v)) by (apply Hn; lra).
    rewrite (Qabs_pos (t / v')) by (apply Hn; lra).
    apply Hq. exact Ht.
Qed.

(** The volatility factor never grows in magnitude with volatility. *)
Lemma vol_factor_magnitude_antitone (t v v' : Q) :
  0 < v -> v <= v' ->
  Qabs (py_min 1 (t / v')) <= Qabs (py_min 1 (t / v)).
Proof.
  intros Hv Hvv'.
  pose proof (quotient_magnitude_antitone t v v' Hv Hvv') as Hq.
  assert (Hv' : 0 < v') by lra.
  destruct (Qlt_le_dec t 0) as [Ht|Ht].
  - assert (N : forall d, 0 < d -> t / d < 0).
    { intros d Hd.
      setoid_replace (t / d) with (- ((- t) / d)) by (field; lra).
      assert (0 < (- t) / d) by (apply Qlt_shift_div_l; lra). lra. }
    pose proof (N v Hv). pose proof (N v' Hv').
    destruct (py_min_spec 1 (t / v)) as [[_ ->]|[? _]]; [|lra].
    destruct (py_min_spec 1 (t / v')) as [[_ ->]|[? _]]; [|lra].
    exact Hq.
  - assert (P : forall d, 0 < d -> 0 <= t / d).
    { intros d Hd. apply Qle_shift_div_l; lra. }
    pose proof (P v Hv) as Pv. pose proof (P v' Hv') as Pv'.
    rewrite (Qabs_pos _ Pv), (Qabs_pos _ Pv') in Hq.
    destruct (py_min_spec 1 (t / v)) as [[L ->]|[L ->]];
      destruct (py_min_spec 1 (t / v')) as [[L' ->]|[L' ->]];
      rewrite ?(Qabs_pos _ Pv), ?(Qabs_pos _ Pv');
      change (Qabs 1) with 1; lra.
Qed.

(** C1 (amended). The drawdown factor of position sizing is
    [1.0 - metrics.drawdown / max_drawdown] with no floor at zero: it is
    negative once the drawdown exceeds a positive limit.  When the drawdown
    equals the limit exactly the factor is 0 and the returned position size is
    0, whatever the base size and the confidence. *)
Theorem dd_factor_linear_zero_at_limit (base_size : Q) (m : RiskMetrics) :
  ~ max_drawdown == 0 -> ~ volatility m == 0 -> ~ min_confidence == 1 ->
  yields (dd_factor max_drawdown m) (1 - drawdown m / max_drawdown) /\
  (0 < max_drawdown -> max_drawdown < drawdown m ->
   exists f, dd_factor max_drawdown m = Some f /\ f < 0) /\
  (drawdown m == max_drawdown ->
   yields (dd_factor max_drawdown m) 0 /\ yields (adjust base_size m) 0).
Proof.
  intros Hd Hv Hc.
  rewrite (dd_factor_defined m Hd).
  rewrite (adjust_position_size_defined base_size m Hv Hd Hc).
  simpl. split; [reflexivity|]. split.
  - intros Hpos Hgt. eexists. split; [reflexivity|].
    assert (1 < drawdown m / max_drawdown) by (apply Qlt_shift_div_l; lra).
    lra.
  - intros E.
    assert (Z : 1 - drawdown m / max_drawdown == 0).
    { rewrite E. field. exact Hd. }
    split; [exact Z|]. rewrite Z. ring.
Qed.


(** C6. With everything but the volatility held fixed, a volatility that is
    at least as large never gives a position size of larger magnitude. *)
Theorem size_magnitude_antitone_in_volatility
  (base_size : Q) (m : RiskMetrics) (v' : Q) :
  ~ max_drawdown == 0 -> ~ min_confidence == 1 ->
  0 < volatility m -> volatility m <= v' ->
  exists r r',
    adjust base_size m = Some r /\
    adjust base_size (with_volatility m v') = Some r' /\
    Qabs r' <= Qabs r.
Proof.
  intros Hd Hc Hv Hvv'.
  assert (Hv0 : ~ volatility m == 0) by lra.
  assert (Hv0' : ~ volatility (with_volatility m v') == 0) by (simpl; lra).
  rewrite (adjust_position_size_defined base_size m Hv0 Hd Hc).
  rewrite (adjust_position_size_defined base_size _ Hv0' Hd Hc).
  simpl. do 2 eexists. split; [reflexivity|]. split; [reflexivity|].
  pose proof (vol_factor_magnitude_antitone target_vol _ _ Hv Hvv') as Hf.
  set (vf := py_min 1 (target_vol / volatility m)) in *.
  set (vf' := py_min 1 (target_vol / v')) in *.
  set (df := 1 - drawdown m / max_drawdown).
  set (cf := py_max 0 _).
  rewrite !Qabs_Qmult.
  pose proof (Qabs_nonneg base_size). pose proof (Qabs_nonneg df).
  pose proof (Qabs_nonneg cf).
  apply Qmult_le_compat_r; [|assumption].
  apply Qmult_le_compat_r; [|assumption].
  rewrite (Qmult_comm _ (Qabs vf')), (Qmult_comm _ (Qabs vf)).
  apply Qmult_le_compat_r; assumption.
Qed.

End PositionSizingFacts.

(** C1, counterexample. With a drawdown of 0.4 against a limit of 0.2 the
    factor is -1, not the floored value 0, and a base size of 0.5 comes back
    as -0.5: the position is scaled into the opposite direction. *)
Lemma dd_factor_negative_beyond_limit :
  yields (dd_factor 0.2 metrics_over_limit) (-1) /\
  dd_factor_floored 0.2 metrics_over_limit == 0 /\
  ~ yields (dd_factor 0.2 metrics_over_limit)
           (dd_factor_floored 0.2 metrics_over_limit) /\
  yields (adjust_position_size 0.15 0.2 0.6 0.5 metrics_over_limit) (-0.5).
Proof.
  repeat split; try reflexivity.
  vm_compute. discriminate.
Qed.

Lemma dd_factor_linear_zero_at_limit_witness :
  yields (dd_factor 0.2 metrics_at_limit) 0 /\
  yields (adjust_position_size 0.15 0.2 0.6 0.5 metrics_at_limit) 0.
Proof.
  assert (Hd : ~ 0.2 == 0) by (vm_compute; discriminate).
  assert (Hv : ~ volatility metrics_at_limit == 0) by (vm_compute; discriminate).
  assert (Hc : ~ 0.6 == 1) by (vm_compute; discriminate).
  destruct (dd_factor_linear_zero_at_limit 0.15 0.2 0.6 0.5 metrics_at_limit
              Hd Hv Hc) as (_ & _ & H).
  apply H. reflexivity.
Defined.



(** Doubling the volatility halves the size: 0.28125 against 0.140625. *)
Example size_halves_when_volatility_doubles :
  yields (adjust_position_size 0.15 0.2 0.6 0.5 metrics_confident) 0.28125 /\
  yields (adjust_position_size 0.15 0.2 0.6 0.5
            (with_volatility metrics_confident 0.3)) 0.140625.
Proof. split; vm_compute; reflexivity. Qed.

Lemma size_magnitude_antitone_in_volatility_witness :
  exists r r',
    adjust_position_size 0.15 0.2 0.6 0.5 metrics_confident = Some r /\
    adjust_position_size 0.15 0.2 0.6 0.5
      (with_volatility metrics_confident 0.3) = Some r' /\
    Qabs r' <= Qabs r.
Proof.
  apply (size_magnitude_antitone_in_volatility 0.15 0.2 0.6 0.5
           metrics_confident 0.3).
  - vm_compute; discriminate.
  - vm_compute; discriminate.
  - reflexivity.
  - vm_compute; discriminate.
Defined.

(** ** Risk metrics *)

Lemma Qle_bool_false_lt (a b : Q) : Qle_bool a b = false -> b < a.
Proof.
  intros E. apply Qnot_le_lt. intro A. apply Qle_bool_iff in A. congruence.
Qed.

Lemma Qltb_true (a b : Q) : Qltb a b = true <-> a < b.
Proof.
  unfold Qltb. split.
  - intros E. apply Qle_bool_false_lt. now apply negb_true_iff.
  - intros L. apply negb_true_iff. destruct (Qle_bool b a) eqn:E; [|reflexivity].
    apply Qle_bool_iff in E. lra.
Qed.

(** *** The sorted array *)

Inductive ascending : list Q -> Prop :=
| ascending_nil : ascending []
| ascending_cons x l :
    (forall y, In y l -> x <= y) -> ascending l -> ascending (x :: l).

Lemma insert_sorted_In (x y : Q) (l : list Q) :
  In y (insert_sorted x l) <-> y = x \/ In y l.
Proof.
  induction l as [|z t IH]; simpl.
  - intuition.
  - destruct (Qle_bool x z); simpl; [intuition|].
    rewrite IH. intuition.
Qed.

Lemma insert_sorted_length (x : Q) (l : list Q) :
  length (insert_sorted x l) = S (length l).
Proof.
  induction l as [|z t IH]; simpl; [reflexivity|].
  destruct (Qle_bool x z); simpl; [reflexivity|]. now rewrite IH.
Qed.

Lemma insert_sorted_ascending (x : Q) (l : list Q) :
  ascending l -> ascending (insert_sorted x l).
Proof.
  induction 1 as [|z t Hz Ht IH]; simpl.
  - constructor; [intros y []|constructor].
  - destruct (Qle_bool x z) eqn:E.
    + apply Qle_bool_iff in E. constructor; [|constructor; assumption].
      intros y [<-|Hy]; [exact E|]. specialize (Hz y Hy). lra.
    + apply Qle_bool_false_lt in E. constructor; [|exact IH].
      intros y Hy. apply insert_sorted_In in Hy as [->|Hy]; [lra|auto].
Qed.

Lemma np_sort_In (a : list Q) (y : Q) : In y (np_sort a) <-> In y a.
Proof.
  induction a as [|x t IH]; simpl; [reflexivity|].
  rewrite insert_sorted_In, IH. intuition.
Qed.

Lemma np_sort_length (a : list Q) : length (np_sort a) = length a.
Proof.
  induction a as [|x t IH]; simpl; [reflexivity|].
  now rewrite insert_sorted_length, IH.
Qed.

Lemma np_sort_ascending (a : list Q) : ascending (np_sort a).
Proof.
  induction a as [|x t IH]; simpl; [constructor|].
  now apply insert_sorted_ascending.
Qed.

(** In an ascending array order statistics grow with the index. *)
Lemma ascending_nth (s : list Q) (d : Q) :
  ascending s ->
  forall i j, (i <= j)%nat -> (j < length s)%nat -> nth i s d <= nth j s d.
Proof.
  induction 1 as [|x t Hx Ht IH]; intros i j Hij Hj; simpl in Hj; [lia|].
  destruct i as [|i], j as [|j]; simpl; try lia.
  - lra.
  - apply Hx. apply nth_In. lia.
  - apply IH; lia.
Qed.

(** With the head as the default, no entry read is below the head. *)
Lemma ascending_head_least (x : Q) (t : list Q) (i : nat) :
  ascending (x :: t) -> x <= nth i (x :: t) x.
Proof.
  intros A. destruct (Nat.lt_ge_cases i (length (x :: t))) as [L|G].
  - change x with (nth 0 (x :: t) x) at 1. apply ascending_nth; [exact A|lia|exact L].
  - rewrite nth_overflow by exact G. lra.
Qed.

(** *** The percentile lies at or above the smallest sample *)

Lemma np_percentile_defined (a : list Q) (q : Q) :
  a <> [] -> 0 <= q -> q <= 100 ->
  exists v m, np_percentile a q = Some v /\ In m a /\ m <= v.
Proof.
  intros Ha H0 H100. unfold np_percentile.
  assert (B : Qle_bool 0 q && Qle_bool q 100 = true).
  { apply andb_true_iff. split; apply Qle_bool_iff; assumption. }
  rewrite B. simpl negb. cbv iota.
  pose proof (np_sort_ascending a) as A.
  pose proof (np_sort_In a) as I.
  pose proof (np_sort_length a) as L.
  destruct (np_sort a) as [|x t] eqn:E.
  - destruct a; [congruence|discriminate L].
  - cbv zeta.
    set (n := length (x :: t)).
    set (vi := inject_Z (Z.of_nat (n - 1)) * (q / 100)).
    set (previous := Z.to_nat (Qfloor vi)).
    set (next := Nat.min (previous + 1) (n - 1)).
    eexists. exists x. split; [reflexivity|]. split; [apply I; now left|].
    assert (G : 0 <= vi - inject_Z (Qfloor vi)).
    { pose proof (Qfloor_le vi). lra. }
    assert (Hp : x <= nth previous (x :: t) x) by now apply ascending_head_least.
    assert (Hn : nth previous (x :: t) x <= nth next (x :: t) x).
    { destruct (Nat.lt_ge_cases previous n) as [Lt|Ge].
      - apply ascending_nth; [exact A| |]; subst next; fold n; lia.
      - rewrite (nth_overflow (x :: t)) by exact Ge.
        now apply ascending_head_least. }
    nra.
Qed.

Example scenario1_percentile :
  yields (np_percentile scenario1_returns 20) (-0.012).
Proof. vm_compute. reflexivity. Qed.

Lemma filter_le_nonempty (a : list Q) (m v : Q) :
  In m a -> m <= v -> filter (fun r => Qle_bool r v) a <> [].
Proof.
  intros Hm Hle E.
  assert (F : In m (filter (fun r => Qle_bool r v) a)).
  { apply filter_In. split; [exact Hm|]. now apply Qle_bool_iff. }
  rewrite E in F. exact F.
Qed.

Lemma np_mean_defined (a : list Q) :
  a <> [] -> np_mean a = Some (Qsum a / Qlen a).
Proof. destruct a; [congruence|reflexivity]. Qed.

Lemma filter_lt_empty (a : list Q) (t : Q) :
  (forall r, In r a -> t <= r) -> filter (fun r => Qltb r t) a = [].
Proof.
  intros H. induction a as [|x l IH]; simpl; [reflexivity|].
  destruct (Qltb x t) eqn:E.
  - apply Qltb_true in E. specialize (H x (or_introl eq_refl)). lra.
  - apply IH. intros r Hr. apply H. now right.
Qed.

(** C3, counterexample. For the five returns of the scenario at confidence
    0.8, the VaR of [calculate_risk_metrics] is -0.012 and that of
    [calculate_var] is 0.012; neither is the sample minimum -0.02. *)
Lemma scenario1_var_not_minimum :
  yields (get_var (calculate_risk_metrics scenario1_returns 0.8)) (-0.012) /\
  ~ yields (get_var (calculate_risk_metrics scenario1_returns 0.8)) (-0.02) /\
  yields (calculate_var scenario1_returns 0.8) 0.012 /\
  ~ yields (calculate_var scenario1_returns 0.8) (-0.02).
Proof.
  repeat split; try (vm_compute; reflexivity); vm_compute; discriminate.
Qed.

(** C3 (amended). For the five returns of the scenario at confidence 0.8,
    VaR is the 20th percentile under linear interpolation, which lies at the
    virtual index 0.8 between the two lowest samples:
    -0.02 + 0.8 * (-0.01 - (-0.02)) = -0.012; ES is the mean of the returns at
    or below it, -0.02.  Under the sign convention of [calculate_var] and
    [calculate_es] the two values are 0.012 and 0.02. *)
Theorem scenario1_var_interpolated :
  np_sort scenario1_returns = [-0.02; -0.01; 0.005; 0.01; 0.015] /\
  yields (get_var (calculate_risk_metrics scenario1_returns 0.8))
         (-0.02 + 0.8 * (-0.01 - -0.02)) /\
  yields (get_var (calculate_risk_metrics scenario1_returns 0.8)) (-0.012) /\
  filter (fun r => Qle_bool r (-0.012)) scenario1_returns = [-0.02] /\
  yields (get_es (calculate_risk_metrics scenario1_returns 0.8)) (-0.02) /\
  yields (calculate_var scenario1_returns 0.8) 0.012 /\
  yields (calculate_es scenario1_returns 0.012) 0.02.
Proof.
  repeat split; vm_compute; reflexivity.
Qed.

(** C4, counterexample. On the constant series [0.01, 0.01] the VaR of
    [calculate_var] is -0.01, no return lies strictly below the threshold
    0.01, and [calculate_es] is the mean of an empty selection: NaN, not
    the VaR. *)
Lemma calculate_es_nan_when_none_below :
  yields (calculate_var constant_returns 0.95) (-0.01) /\
  filter (fun r => Qltb r (- -0.01)) constant_returns = [] /\
  calculate_es constant_returns (-0.01) = None /\
  ~ yields (calculate_es constant_returns (-0.01)) (-0.01).
Proof.
  repeat split; try (vm_compute; reflexivity). vm_compute. auto.
Qed.

(** C4 (amended). In [calculate_risk_metrics], ES is the mean of the returns
    at or below VaR, and for a non-empty series and a confidence level in
    [0, 1] at least one return is at or below VaR, so that mean is a number.
    In [calculate_es], ES is the negated mean of the returns strictly below
    [-var]; when no return is strictly below it the result is NaN. *)
Theorem expected_shortfall_tail_mean (returns : list Q) (confidence_level : Q) :
  returns <> [] -> 0 <= confidence_level -> confidence_level <= 1 ->
  (exists v e,
      get_var (calculate_risk_metrics returns confidence_level) = Some v /\
      get_es (calculate_risk_metrics returns confidence_level) = Some e /\
      filter (fun r => Qle_bool r v) returns <> [] /\
      e = Qsum (filter (fun r => Qle_bool r v) returns)
          / Qlen (filter (fun r => Qle_bool r v) returns)) /\
  (forall var,
      calculate_es returns var =
      option_map Qopp (np_mean (filter (fun r => Qltb r (- var)) returns))) /\
  (forall var,
      (forall r, In r returns -> - var <= r) ->
      calculate_es returns var = None).
Proof.
  intros Ha H0 H1. split; [|split].
  - destruct (np_percentile_defined returns ((1 - confidence_level) * 100) Ha)
      as (v & m & Ev & Hm & Hle); [nra|nra|].
    pose proof (filter_le_nonempty returns m v Hm Hle) as Hne.
    exists v. eexists. unfold calculate_risk_metrics. simpl.
    rewrite Ev. simpl. rewrite (np_mean_defined _ Hne).
    repeat split. exact Hne.
  - intros var0. reflexivity.
  - intros var0 H. unfold calculate_es.
    now rewrite (filter_lt_empty returns (- var0) H).
Qed.

Lemma expected_shortfall_tail_mean_witness :
  exists v e,
    get_var (calculate_risk_metrics scenario1_returns 0.8) = Some v /\
    get_es (calculate_risk_metrics scenario1_returns 0.8) = Some e /\
    filter (fun r => Qle_bool r v) scenario1_returns <> [] /\
    e = Qsum (filter (fun r => Qle_bool r v) scenario1_returns)
        / Qlen (filter (fun r => Qle_bool r v) scenario1_returns).
Proof.
  apply (expected_shortfall_tail_mean scenario1_returns 0.8).
  - discriminate.
  - vm_compute; discriminate.
  - vm_compute; discriminate.
Defined.

(** C5, counterexample. The VaR entry of [calculate_risk_metrics] is the
    percentile itself: on the scenario's returns at confidence 0.8 it is
    -0.012, while the negated percentile is 0.012. *)
Lemma risk_metrics_var_not_negated :
  yields (var_negated_percentile scenario1_returns 0.8) 0.012 /\
  yields (get_var (calculate_risk_metrics scenario1_returns 0.8)) (-0.012) /\
  ~ yields (get_var (calculate_risk_metrics scenario1_returns 0.8)) 0.012.
Proof.
  repeat split; try (vm_compute; reflexivity). vm_compute. discriminate.
Qed.

(** C5 (amended). For a non-empty return series and a confidence level in
    [0, 1], [calculate_var] returns the negated
    [(1 - confidence_level) * 100] empirical percentile, and the VaR entry of
    [calculate_risk_metrics] is that percentile itself, not negated. *)
Theorem var_sign_conventions (returns : list Q) (confidence_level : Q) :
  returns <> [] -> 0 <= confidence_level -> confidence_level <= 1 ->
  exists p,
    np_percentile returns ((1 - confidence_level) * 100) = Some p /\
    calculate_var returns confidence_level = Some (- p) /\
    calculate_var returns confidence_level =
      var_negated_percentile returns confidence_level /\
    get_var (calculate_risk_metrics returns confidence_level) = Some p.
Proof.
  intros Ha H0 H1.
  destruct (np_percentile_defined returns ((1 - confidence_level) * 100) Ha)
    as (v & m & Ev & _); [nra|nra|].
  exists v. unfold calculate_var, var_negated_percentile, calculate_risk_metrics.
  simpl. rewrite Ev. repeat split.
Qed.

Lemma var_sign_conventions_witness :
  exists p,
    np_percentile scenario1_returns ((1 - 0.8) * 100) = Some p /\
    calculate_var scenario1_returns 0.8 = Some (- p) /\
    calculate_var scenario1_returns 0.8 =
      var_negated_percentile scenario1_returns 0.8 /\
    get_var (calculate_risk_metrics scenario1_returns 0.8) = Some p.
Proof.
  apply (var_sign_conventions scenario1_returns 0.8).
  - discriminate.
  - vm_compute; discriminate.
  - vm_compute; discriminate.
Defined.

(** ** Drawdowns *)

Lemma cumprod_from_length (acc : Q) (a : list Q) :
  length (cumprod_from acc a) = length a.
Proof.
  revert acc. induction a as [|x t IH]; intros acc; simpl; [reflexivity|].
  now rewrite IH.
Qed.

Lemma accumulate_from_length (m : Q) (a : list Q) :
  length (accumulate_from m a) = length a.
Proof.
  revert m. induction a as [|x t IH]; intros m; simpl; [reflexivity|].
  now rewrite IH.
Qed.

Lemma maximum_accumulate_length (a : list Q) :
  length (maximum_accumulate a) = length a.
Proof.
  destruct a as [|x t]; simpl; [reflexivity|].
  now rewrite accumulate_from_length.
Qed.

Lemma py_max_lower (m x : Q) : m <= py_max m x.
Proof. destruct (py_max_spec m x) as [[? ->]|[? ->]]; lra. Qed.

(** A running maximum that starts positive stays positive. *)
Lemma accumulate_from_positive (m : Q) (a : list Q) :
  0 < m -> forall y, In y (accumulate_from m a) -> 0 < y.
Proof.
  revert m. induction a as [|x t IH]; intros m Hm y; simpl; [intros []|].
  pose proof (py_max_lower m x) as L.
  intros [<-|Hy]; [lra|]. apply (IH (py_max m x)); [lra|exact Hy].
Qed.

Lemma maximum_accumulate_positive (x : Q) (t : list Q) :
  0 < x -> forall y, In y (maximum_accumulate (x :: t)) -> 0 < y.
Proof.
  intros Hx y [<-|Hy]; [exact Hx|].
  now apply (accumulate_from_positive x t).
Qed.

Lemma all_finite_map {A : Type} (f : A -> option Q) (g : A -> Q) (l : list A) :
  (forall x, In x l -> f x = Some (g x)) ->
  map f l = map Some (map g l) /\ all_finite (map f l) = Some (map g l).
Proof.
  induction l as [|x t IH]; intros H; simpl; [now split|].
  rewrite (H x (or_introl eq_refl)).
  destruct IH as [IH1 IH2]; [intros y Hy; apply H; now right|].
  rewrite IH2. split; [now rewrite IH1|reflexivity].
Qed.

Lemma skip_nan_map {A : Type} (f : A -> option Q) (g : A -> Q) (l : list A) :
  (forall x, In x l -> f x = Some (g x)) -> skip_nan (map f l) = map g l.
Proof.
  induction l as [|x t IH]; intros H; simpl; [reflexivity|].
  rewrite (H x (or_introl eq_refl)), IH; [reflexivity|].
  intros y Hy. apply H. now right.
Qed.

Lemma py_min_upper_l (m x : Q) : py_min m x <= m.
Proof. destruct (py_min_spec m x) as [[? ->]|[? ->]]; lra. Qed.

Lemma py_min_upper_r (m x : Q) : py_min m x <= x.
Proof. destruct (py_min_spec m x) as [[? ->]|[? ->]]; lra. Qed.

Lemma py_min_compat (m m' x x' : Q) :
  m == m' -> x == x' -> py_min m x == py_min m' x'.
Proof.
  intros Em Ex.
  destruct (py_min_spec m x) as [[? ->]|[? ->]];
    destruct (py_min_spec m' x') as [[? ->]|[? ->]]; lra.
Qed.

Lemma minimum_from_le_start (m : Q) (a : list Q) : minimum_from m a <= m.
Proof.
  revert m. induction a as [|x t IH]; intros m; simpl; [lra|].
  pose proof (IH (py_min m x)). pose proof (py_min_upper_l m x). lra.
Qed.

Lemma minimum_from_le (m : Q) (a : list Q) (y : Q) :
  In y a -> minimum_from m a <= y.
Proof.
  revert m. induction a as [|x t IH]; intros m; simpl; [intros []|].
  intros [<-|Hy].
  - pose proof (minimum_from_le_start (py_min m x) t).
    pose proof (py_min_upper_r m x). lra.
  - now apply IH.
Qed.

Lemma minimum_from_In (m : Q) (a : list Q) : In (minimum_from m a) (m :: a).
Proof.
  revert m. induction a as [|x t IH]; intros m; simpl; [now left|].
  destruct (IH (py_min m x)) as [E|H]; [|right; now right].
  rewrite <- E.
  destruct (py_min_spec m x) as [[_ ->]|[_ ->]]; [right|]; now left.
Qed.

Lemma minimum_from_compat (m m' : Q) (a a' : list Q) :
  m == m' -> Forall2 Qeq a a' -> minimum_from m a == minimum_from m' a'.
Proof.
  intros Em F. revert m m' Em.
  induction F as [|x x' t t' Ex F IH]; intros m m' Em; simpl; [exact Em|].
  apply IH. now apply py_min_compat.
Qed.

(** The two guides write the same curve: [(c - m) / m] and [c / m - 1]. *)
Lemma drawdown_forms_agree (c m : Q) : ~ m == 0 -> (c - m) / m == c / m - 1.
Proof. intros Hm. field. exact Hm. Qed.

Lemma Forall2_map_graph {A B : Type} (P : B -> A -> Prop) (g : A -> B)
  (l : list A) :
  (forall x, In x l -> P (g x) x) -> Forall2 P (map g l) l.
Proof.
  induction l as [|x t IH]; intros H; simpl; constructor.
  - apply H. now left.
  - apply IH. intros y Hy. apply H. now right.
Qed.

Lemma Forall2_map_both {A : Type} (g g' : A -> Q) (l : list A) :
  (forall x, In x l -> g' x == g x) -> Forall2 Qeq (map g' l) (map g l).
Proof.
  induction l as [|x t IH]; intros H; simpl; constructor.
  - apply H. now left.
  - apply IH. intros y Hy. apply H. now right.
Qed.

(** C9, counterexample. After a gain of 10% and a loss of 50% the curve is
    [0, -0.5]; [analyze_drawdowns] reports the mean over both periods,
    -0.25, while the mean of the negative excursions alone is -0.5. *)
Lemma avg_drawdown_counts_every_period :
  Forall2 yields (drawdowns gain_then_loss) [0; -0.5] /\
  yields (get_avg_drawdown (analyze_drawdowns gain_then_loss)) (-0.25) /\
  yields (avg_negative_excursions (skip_nan (drawdowns gain_then_loss)))
         (-0.5) /\
  ~ yields (get_avg_drawdown (analyze_drawdowns gain_then_loss)) (-0.5).
Proof.
  split; [repeat constructor|].
  repeat split; try (vm_compute; reflexivity). vm_compute. discriminate.
Qed.

(** C9 (amended). For a non-empty series of returns above -100%, the
    drawdown curve is [cumulative / running-max - 1] over the running product
    of [1 + return]; [max_drawdown] is the minimum of that curve, in
    [analyze_drawdowns] and in [calculate_metrics] alike, and [avg_drawdown]
    is the mean of the curve over all periods. *)
Theorem drawdown_curve_min_and_mean (returns : list Q) :
  returns <> [] -> Forall (fun r => -1 < r) returns ->
  exists curve,
    drawdowns returns = map Some curve /\
    Forall2 (fun d cm => d == fst cm / snd cm - 1) curve
      (combine (np_cumprod (map (Qplus 1) returns))
               (maximum_accumulate (np_cumprod (map (Qplus 1) returns)))) /\
    length curve = length returns /\
    exists mdd avg,
      get_max_drawdown (analyze_drawdowns returns) = Some mdd /\
      In mdd curve /\
      (forall d, In d curve -> mdd <= d) /\
      yields (calculate_metrics_max_drawdown returns) mdd /\
      get_avg_drawdown (analyze_drawdowns returns) = Some avg /\
      avg = Qsum curve / Qlen curve.
Proof.
  intros Hne Hall.
  destruct returns as [|r0 rest]; [congruence|].
  assert (H0 : -1 < r0) by (inversion Hall; assumption).
  unfold analyze_drawdowns, calculate_metrics_max_drawdown, drawdowns.
  set (cumulative := np_cumprod (map (Qplus 1) (r0 :: rest))).
  set (rolling_max := maximum_accumulate cumulative).
  set (pairs := combine cumulative rolling_max).
  set (g := fun cm : Q * Q => (fst cm - snd cm) / snd cm).
  set (g' := fun cm : Q * Q => fst cm / snd cm - 1).
  assert (Hlen : length pairs = length (r0 :: rest)).
  { subst pairs rolling_max cumulative. unfold np_cumprod.
    rewrite length_combine, maximum_accumulate_length, cumprod_from_length.
    rewrite length_map. apply Nat.min_id. }
  assert (Hpos : forall cm, In cm pairs -> 0 < snd cm).
  { intros [c m] Hin. apply in_combine_r in Hin. simpl.
    subst rolling_max cumulative. unfold np_cumprod in Hin. simpl map in Hin.
    simpl cumprod_from in Hin.
    apply (maximum_accumulate_positive _ _) in Hin; [exact Hin|]. lra. }
  clearbody pairs.
  destruct (all_finite_map
              (fun cm => py_div (fst cm - snd cm) (snd cm)) g pairs)
    as [Emap Efin].
  { intros cm Hin. apply py_div_defined. specialize (Hpos cm Hin). lra. }
  assert (Eskip : skip_nan
            (map (fun cm => let? ratio := py_div (fst cm) (snd cm) in
                            Some (ratio - 1)) pairs) = map g' pairs).
  { apply skip_nan_map. intros cm Hin.
    rewrite py_div_defined; [reflexivity|]. specialize (Hpos cm Hin). lra. }
  assert (Hagree : forall cm, In cm pairs -> g' cm == g cm).
  { intros cm Hin. symmetry. apply drawdown_forms_agree.
    specialize (Hpos cm Hin). lra. }
  exists (map g pairs). split; [exact Emap|]. split.
  { apply Forall2_map_graph. intros cm Hin. symmetry. now apply Hagree. }
  split; [now rewrite length_map|].
  unfold np_min, np_array_mean, pd_min. rewrite Efin, Eskip. simpl bind.
  pose proof (Forall2_map_both g g' pairs Hagree) as F.
  destruct pairs as [|p ps]; [discriminate Hlen|].
  simpl map in *. inversion F as [|? ? ? ? Ep Fps]; subst.
  exists (minimum_from (g p) (map g ps)). eexists.
  split; [reflexivity|]. split; [apply minimum_from_In|]. split.
  { intros d [<-|Hd]; [apply minimum_from_le_start|now apply minimum_from_le]. }
  split; [|split; reflexivity].
  simpl. now apply minimum_from_compat.
Qed.

Lemma drawdown_curve_min_and_mean_witness :
  exists curve,
    drawdowns gain_then_loss = map Some curve /\
    Forall2 (fun d cm => d == fst cm / snd cm - 1) curve
      (combine (np_cumprod (map (Qplus 1) gain_then_loss))
               (maximum_accumulate (np_cumprod (map (Qplus 1) gain_then_loss)))) /\
    length curve = length gain_then_loss /\
    exists mdd avg,
      get_max_drawdown (analyze_drawdowns gain_then_loss) = Some mdd /\
      In mdd curve /\
      (forall d, In d curve -> mdd <= d) /\
      yields (calculate_metrics_max_drawdown gain_then_loss) mdd /\
      get_avg_drawdown (analyze_drawdowns gain_then_loss) = Some avg /\
      avg = Qsum curve / Qlen curve.
Proof.
  apply (drawdown_curve_min_and_mean gain_then_loss).
  - discriminate.
  - repeat constructor.
Defined.

(** ** Statistical-arbitrage signals *)

(** Above a positive threshold the quotient exceeds 1 and the cap binds. *)
Lemma confidence_cap_binds (z : xfloat) (zscore_threshold : Q) :
  0 < zscore_threshold ->
  x_gt (x_abs z) zscore_threshold = true ->
  x_min (x_div (x_abs z) zscore_threshold) 1 = Fin 1.
Proof.
  intros Ht G.
  assert (E0 : Qeq_bool zscore_threshold 0 = false).
  { destruct (Qeq_bool zscore_threshold 0) eqn:E; [|reflexivity].
    apply Qeq_bool_eq in E. lra. }
  assert (N : Qltb zscore_threshold 0 = false).
  { destruct (Qltb zscore_threshold 0) eqn:E; [|reflexivity].
    apply Qltb_true in E. lra. }
  destruct z as [q| | |]; simpl in *; rewrite ?E0, ?N; try reflexivity;
    try discriminate.
  apply Qltb_true in G.
  assert (L : 1 < Qabs q / zscore_threshold) by (apply Qlt_shift_div_l; lra).
  apply Qltb_true in L. simpl. now rewrite L.
Qed.

(** C10, counterexample. With the threshold -2 a pair one deviation from
    its mean passes the guard, and the signal carries the confidence
    [min(1 / -2, 1.0) = -0.5]; the jump series gives [-4/3] likewise. *)
Lemma negative_threshold_confidence_not_one :
  (exists s,
      generate_pairs_signal pair_one_sigma (-2) = Some s /\
      xyields (confidence s) (-0.5) /\ confidence s <> Fin 1) /\
  (exists s,
      generate_mean_reversion_signal isqrt prices_jump 9 (-2)
      = Returns (Some s) /\
      xyields (confidence s) (-4 # 3) /\ confidence s <> Fin 1).
Proof.
  split; eexists; (split; [vm_compute; reflexivity|]); simpl;
    (split; [reflexivity|discriminate]).
Qed.

(** C10 (amended). For a positive [zscore_threshold], every signal that
    [generate_pairs_signal] or [generate_mean_reversion_signal] returns has
    the confidence exactly 1.0, and a signal is returned whenever the
    magnitude of the z-score exceeds the threshold. *)
Theorem signal_confidence_is_one
  (np_sqrt : Q -> Q) (pair : PairAnalysis) (prices : Series)
  (lookback : nat) (zscore_threshold : Q) :
  0 < zscore_threshold ->
  (forall s, generate_pairs_signal pair zscore_threshold = Some s ->
             confidence s = Fin 1) /\
  (zscore_threshold < Qabs (zscore pair) ->
   exists s, generate_pairs_signal pair zscore_threshold = Some s) /\
  (forall s,
      generate_mean_reversion_signal np_sqrt prices lookback zscore_threshold
      = Returns (Some s) ->
      confidence s = Fin 1) /\
  (forall z,
      zscore_last np_sqrt (values prices) lookback = Some z ->
      x_gt (x_abs z) zscore_threshold = true ->
      exists s,
        generate_mean_reversion_signal np_sqrt prices lookback
          zscore_threshold = Returns (Some s)).
Proof.
  intros Ht. repeat split.
  - intros s. unfold generate_pairs_signal.
    destruct (x_gt (x_abs (Fin (zscore pair))) zscore_threshold) eqn:G;
      [|discriminate].
    intros E. injection E as <-. cbn [confidence].
    exact (confidence_cap_binds (Fin (zscore pair)) zscore_threshold Ht G).
  - intros L. unfold generate_pairs_signal. simpl x_abs. simpl x_gt.
    apply Qltb_true in L. rewrite L. eexists. reflexivity.
  - intros s. unfold generate_mean_reversion_signal.
    destruct (zscore_last np_sqrt (values prices) lookback) as [z|];
      [|discriminate].
    destruct (x_gt (x_abs z) zscore_threshold) eqn:G; [|discriminate].
    intros E. injection E as <-. cbn [confidence].
    now apply confidence_cap_binds.
  - intros z Ez G. unfold generate_mean_reversion_signal.
    rewrite Ez, G. eexists. reflexivity.
Qed.

Lemma signal_confidence_is_one_witness :
  (exists s, generate_pairs_signal pair_three_sigma 2 = Some s /\
             confidence s = Fin 1) /\
  (exists s, generate_mean_reversion_signal isqrt prices_jump 9 2
             = Returns (Some s) /\
             confidence s = Fin 1).
Proof.
  assert (Ht : 0 < 2) by reflexivity.
  destruct (signal_confidence_is_one isqrt pair_three_sigma prices_jump 9 2 Ht)
    as (Hp & _ & Hm & _).
  split; eexists; (split; [vm_compute; reflexivity|]).
  - apply Hp. vm_compute. reflexivity.
  - apply Hm. vm_compute. reflexivity.
Defined.

(** * Further facts *)

(** ** Position sizing: when it raises, and how far it scales *)

Section PositionSizingBounds.

Variables target_vol max_drawdown min_confidence : Q.

Local Abbreviation adjust :=
  (adjust_position_size target_vol max_drawdown min_confidence).


(** X2. Within the limits (a drawdown between 0 and a positive limit, a
    confidence of at most 1 over a floor below 1, a positive volatility and
    a target volatility that is not negative) the size is the base size
    times a factor between 0 and 1: it never exceeds the base size in
    magnitude and never changes its direction. *)
Theorem size_within_base (base_size : Q) (m : RiskMetrics) :
  0 <= target_vol -> 0 < volatility m ->
  0 < max_drawdown -> 0 <= drawdown m -> drawdown m <= max_drawdown ->
  min_confidence < 1 -> model_confidence m <= 1 ->
  exists f size,
    adjust base_size m = Some size /\
    0 <= f /\ f <= 1 /\ size == base_size * f /\
    Qabs size <= Qabs base_size.
Proof.
  intros Ht Hv Hd Hd0 Hd1 Hc Hc1.
  rewrite (adjust_position_size_defined _ _ _ base_size m)
    by (intro E; lra).
  set (vf := py_min 1 (target_vol / volatility m)).
  set (df := 1 - drawdown m / max_drawdown).
  set (cf := py_max 0 _).
  assert (Hvf : 0 <= vf /\ vf <= 1).
  { subst vf. assert (0 <= target_vol / volatility m)
      by (apply Qle_shift_div_l; lra).
    destruct (py_min_spec 1 (target_vol / volatility m)) as [[? ->]|[? ->]];
      lra. }
  assert (Hdf : 0 <= df /\ df <= 1).
  { subst df.
    assert (0 <= drawdown m / max_drawdown) by (apply Qle_shift_div_l; lra).
    assert (drawdown m / max_drawdown <= 1) by (apply Qle_shift_div_r; lra).
    lra. }
  assert (Hcf : 0 <= cf /\ cf <= 1).
  { subst cf.
    assert ((model_confidence m - min_confidence) / (1 - min_confidence) <= 1)
      by (apply Qle_shift_div_r; lra).
    destruct (py_max_spec 0 ((model_confidence m - min_confidence)
                             / (1 - min_confidence))) as [[? ->]|[? ->]];
      lra. }
  assert (Hf : 0 <= vf * df * cf /\ vf * df * cf <= 1).
  { destruct Hvf, Hdf, Hcf.
    assert (0 <= vf * df) by (apply Qmult_le_0_compat; assumption).
    assert (vf * df <= 1) by nra.
    split; [apply Qmult_le_0_compat; assumption|nra]. }
  exists (vf * df * cf). eexists. split; [reflexivity|].
  destruct Hf as [Hf0 Hf1].
  split; [exact Hf0|]. split; [exact Hf1|]. split; [ring|].
  setoid_replace (base_size * vf * df * cf) with (base_size * (vf * df * cf))
    by ring.
  rewrite Qabs_Qmult, (Qabs_pos (vf * df * cf)) by exact Hf0.
  pose proof (Qabs_nonneg base_size). nra.
Qed.

End PositionSizingBounds.

Lemma size_within_base_witness :
  exists f size,
    adjust_position_size 0.15 0.2 0.6 0.5 metrics_confident = Some size /\
    0 <= f /\ f <= 1 /\ size == 0.5 * f /\ Qabs size <= Qabs 0.5.
Proof.
  apply (size_within_base 0.15 0.2 0.6 0.5 metrics_confident);
    vm_compute; discriminate || reflexivity.
Defined.

(** ** Risk limit monitoring *)

Lemma Qle_bool_false_gt (a b : Q) : b < a -> Qle_bool a b = false.
Proof.
  intros L. destruct (Qle_bool a b) eqn:E; [|reflexivity].
  apply Qle_bool_iff in E. lra.
Qed.

(** The limits are respected exactly when the three keys are present and
    each metric is at or below its limit. *)
Lemma check_risk_limits_passes (m : RiskMetrics) (limits : dict Q) :
  check_risk_limits m limits = Done true <->
  exists var_limit drawdown_limit volatility_limit,
    dict_get limits "var_limit" = Some var_limit /\
    dict_get limits "drawdown_limit" = Some drawdown_limit /\
    dict_get limits "volatility_limit" = Some volatility_limit /\
    var m <= var_limit /\ drawdown m <= drawdown_limit /\
    volatility m <= volatility_limit.
Proof.
  unfold check_risk_limits. split.
  - destruct (dict_get limits "var_limit") as [vl|]; [|discriminate].
    destruct (Qle_bool (var m) vl) eqn:E1; [|discriminate].
    destruct (dict_get limits "drawdown_limit") as [dl|]; [|discriminate].
    destruct (Qle_bool (drawdown m) dl) eqn:E2; [|discriminate].
    destruct (dict_get limits "volatility_limit") as [l|]; [|discriminate].
    intros E. injection E as E3.
    exists vl, dl, l. repeat split; try reflexivity;
      now apply Qle_bool_iff.
  - intros (vl & dl & l & -> & -> & -> & H1 & H2 & H3).
    apply Qle_bool_iff in H1, H2, H3. now rewrite H1, H2, H3.
Qed.

(** X3. [check_risk_limits] reads the limits lazily.  A missing
    ['var_limit'] raises [KeyError]; a VaR above its limit answers [False]
    whether or not the other two keys exist, and so does a drawdown above
    its limit when ['volatility_limit'] is missing; the later keys raise
    [KeyError] only once the earlier comparisons hold. *)
Theorem check_risk_limits_lazy (m : RiskMetrics) (limits : dict Q) :
  (dict_get limits "var_limit" = None ->
   check_risk_limits m limits = Raise KeyError) /\
  (forall var_limit,
      dict_get limits "var_limit" = Some var_limit ->
      (var_limit < var m -> check_risk_limits m limits = Done false) /\
      (var m <= var_limit ->
       (dict_get limits "drawdown_limit" = None ->
        check_risk_limits m limits = Raise KeyError) /\
       (forall drawdown_limit,
           dict_get limits "drawdown_limit" = Some drawdown_limit ->
           (drawdown_limit < drawdown m ->
            check_risk_limits m limits = Done false) /\
           (drawdown m <= drawdown_limit ->
            dict_get limits "volatility_limit" = None ->
            check_risk_limits m limits = Raise KeyError)))).
Proof.
  unfold check_risk_limits. split.
  - now intros ->.
  - intros vl ->. split.
    + intros L. now rewrite (Qle_bool_false_gt _ _ L).
    + intros L. apply Qle_bool_iff in L. rewrite L. split.
      * now intros ->.
      * intros dl ->. split.
        -- intros L'. now rewrite (Qle_bool_false_gt _ _ L').
        -- intros L' ->. apply Qle_bool_iff in L'. now rewrite L'.
Qed.

(** X4. The check is monotone: metrics that pass keep passing when VaR,
    drawdown and volatility all shrink or stay, under the same limits. *)
Theorem check_risk_limits_monotone (m m' : RiskMetrics) (limits : dict Q) :
  check_risk_limits m limits = Done true ->
  var m' <= var m -> drawdown m' <= drawdown m ->
  volatility m' <= volatility m ->
  check_risk_limits m' limits = Done true.
Proof.
  intros H Hv Hd Hs.
  apply check_risk_limits_passes in H
    as (vl & dl & l & E1 & E2 & E3 & H1 & H2 & H3).
  apply check_risk_limits_passes.
  exists vl, dl, l. repeat split; try assumption; lra.
Qed.

Lemma check_risk_limits_monotone_witness :
  check_risk_limits metrics_calmer limits_configured = Done true.
Proof.
  apply (check_risk_limits_monotone metrics_within_limits
           metrics_calmer limits_configured);
    vm_compute; discriminate || reflexivity.
Defined.

(** ** Trend detection *)

Lemma Qltb_false (a b : Q) : Qltb a b = false <-> b <= a.
Proof.
  unfold Qltb. rewrite negb_false_iff. apply Qle_bool_iff.
Qed.


Lemma Qeq_bool_false (a b : Q) : ~ a == b -> Qeq_bool a b = false.
Proof.
  intros N. destruct (Qeq_bool a b) eqn:E; [|reflexivity].
  apply Qeq_bool_eq in E. contradiction.
Qed.

(** An index is out of range below [-len] and from [len] on. *)
Lemma py_getitem_None (a : list Q) (i : Z) :
  py_getitem a i = None <->
  (i < - Z.of_nat (length a) \/ Z.of_nat (length a) <= i)%Z.
Proof.
  unfold py_getitem.
  destruct (0 <=? i)%Z eqn:E0.
  - apply Z.leb_le in E0. rewrite nth_error_None. lia.
  - apply Z.leb_gt in E0.
    destruct (- Z.of_nat (length a) <=? i)%Z eqn:E1.
    + apply Z.leb_le in E1. rewrite nth_error_None. lia.
    + apply Z.leb_gt in E1. split; [lia|reflexivity].
Qed.

(** X5. [detect_trend] raises [IndexError] exactly when the window is
    longer than the price array or reaches [-len] or below; in particular
    on every empty array.  A window of 0 reads [prices[0]] and a negative
    one reads from the front. *)
Theorem detect_trend_raises_iff (prices : list Q) (window : Z) :
  detect_trend prices window = Raise IndexError <->
  (Z.of_nat (length prices) < window \/
   window <= - Z.of_nat (length prices))%Z.
Proof.
  unfold detect_trend.
  destruct (py_getitem prices (-1)) as [last|] eqn:E1;
    destruct (py_getitem prices (- window)) as [reference|] eqn:E2.
  - split; [discriminate|]. intros H.
    assert (N : py_getitem prices (- window) = None)
      by (apply py_getitem_None; lia).
    congruence.
  - apply py_getitem_None in E2. split; [lia|reflexivity].
  - apply py_getitem_None in E1. split; [lia|reflexivity].
  - apply py_getitem_None in E1. split; [lia|reflexivity].
Qed.

(** X6. Over a positive reference price [prices[-window]] the answer
    follows the direction of the price: it is never a downtrend while the
    last price is at or above the reference, never an uptrend while it is
    at or below, and ranging when the two are equal.  (Where exactly the 2%
    cut falls depends on the rounding of the quotient: [10.0, 10.2] gives a
    trend just under 0.02 in binary64, so no cut point is stated.) *)
Theorem detect_trend_follows_price
  (prices : list Q) (window : Z) (last reference : Q) :
  py_getitem prices (-1) = Some last ->
  py_getitem prices (- window) = Some reference ->
  0 < reference ->
  (reference <= last ->
   detect_trend prices window = Done ranging \/
   detect_trend prices window = Done trending_up) /\
  (last <= reference ->
   detect_trend prices window = Done ranging \/
   detect_trend prices window = Done trending_down) /\
  (last == reference -> detect_trend prices window = Done ranging).
Proof.
  intros E1 E2 Hr. unfold detect_trend. rewrite E1, E2.
  cbn [x_div]. rewrite (Qeq_bool_false reference 0) by lra.
  cbn [x_abs x_lt x_gt].
  set (t := (last - reference) / reference).
  assert (Et : t * reference == last - reference)
    by (subst t; field; lra).
  repeat split.
  - intros H. assert (Ht : 0 <= t) by nra.
    destruct (Qltb (Qabs t) 0.02) eqn:A; [now left|right].
    apply Qltb_false in A. rewrite Qabs_pos in A by exact Ht.
    assert (B : Qltb 0 t = true) by (apply Qltb_true; lra).
    now rewrite B.
  - intros H. assert (Ht : t <= 0) by nra.
    destruct (Qltb (Qabs t) 0.02) eqn:A; [now left|right].
    assert (B : Qltb 0 t = false) by (apply Qltb_false; lra).
    now rewrite B.
  - intros H. assert (Ht : t == 0) by nra.
    assert (A : Qltb (Qabs t) 0.02 = true).
    { apply Qltb_true. rewrite Ht. reflexivity. }
    now rewrite A.
Qed.

Lemma detect_trend_follows_price_witness :
  detect_trend prices_rally 4 = Done ranging \/
  detect_trend prices_rally 4 = Done trending_up.
Proof.
  assert (E1 : py_getitem prices_rally (-1) = Some 106) by reflexivity.
  assert (E2 : py_getitem prices_rally (- 4) = Some 100) by reflexivity.
  assert (Hr : 0 < 100) by reflexivity.
  destruct (detect_trend_follows_price prices_rally 4 106 100 E1 E2 Hr)
    as (H & _ & _).
  apply H. vm_compute. discriminate.
Defined.



(** ** Value at Risk and Expected Shortfall *)

Lemma Qlen_cons (x : Q) (l : list Q) : Qlen (x :: l) == 1 + Qlen l.
Proof.
  unfold Qlen. cbn [length]. rewrite Nat2Z.inj_succ, <- Z.add_1_l.
  rewrite inject_Z_plus. reflexivity.
Qed.

Lemma Qlen_nonneg (l : list Q) : 0 <= Qlen l.
Proof.
  unfold Qlen. change 0 with (inject_Z 0). rewrite <- Zle_Qle. lia.
Qed.

Lemma Qlen_positive (l : list Q) : l <> [] -> 0 < Qlen l.
Proof.
  destruct l as [|x t]; [congruence|]. intros _.
  rewrite Qlen_cons. pose proof (Qlen_nonneg t). lra.
Qed.

Lemma Qsum_upper (l : list Q) (v : Q) :
  (forall r, In r l -> r <= v) -> Qsum l <= v * Qlen l.
Proof.
  induction l as [|x t IH]; intros H.
  - change (Qlen []) with 0. simpl. lra.
  - cbn [Qsum]. rewrite Qlen_cons.
    pose proof (H x (or_introl eq_refl)).
    assert (Qsum t <= v * Qlen t) by (apply IH; intros r Hr; apply H; now right).
    lra.
Qed.

Lemma Qsum_lower (l : list Q) (v : Q) :
  (forall r, In r l -> v <= r) -> v * Qlen l <= Qsum l.
Proof.
  induction l as [|x t IH]; intros H.
  - change (Qlen []) with 0. simpl. lra.
  - cbn [Qsum]. rewrite Qlen_cons.
    pose proof (H x (or_introl eq_refl)).
    assert (v * Qlen t <= Qsum t) by (apply IH; intros r Hr; apply H; now right).
    lra.
Qed.

Lemma Qsum_strict_upper (l : list Q) (v : Q) :
  l <> [] -> (forall r, In r l -> r < v) -> Qsum l < v * Qlen l.
Proof.
  destruct l as [|x t]; [congruence|]. intros _ H.
  cbn [Qsum]. rewrite Qlen_cons.
  pose proof (H x (or_introl eq_refl)).
  assert (Qsum t <= v * Qlen t).
  { apply Qsum_upper. intros r Hr. apply Qlt_le_weak, H. now right. }
  lra.
Qed.

(** The mean of a non-empty array lies between any bounds of its entries. *)
Lemma mean_between (l : list Q) (lo hi : Q) :
  l <> [] -> (forall r, In r l -> lo <= r /\ r <= hi) ->
  lo <= Qsum l / Qlen l /\ Qsum l / Qlen l <= hi.
Proof.
  intros Hne H. pose proof (Qlen_positive l Hne) as P.
  split.
  - apply Qle_shift_div_l; [exact P|]. apply Qsum_lower. intros r Hr.
    now apply H.
  - apply Qle_shift_div_r; [exact P|]. apply Qsum_upper. intros r Hr.
    now apply H.
Qed.

(** The interpolated value lies between the two order statistics around
    the virtual index. *)
Lemma interpolation_between (x : Q) (t : list Q) (vi : Q) :
  ascending (x :: t) ->
  0 <= vi -> vi <= inject_Z (Z.of_nat (length (x :: t) - 1)) ->
  (Z.to_nat (Qfloor vi) <= length (x :: t) - 1)%nat /\
  0 <= vi - inject_Z (Qfloor vi) /\
  vi - inject_Z (Qfloor vi) < 1 /\
  nth (Z.to_nat (Qfloor vi)) (x :: t) x
  <= nth (Z.to_nat (Qfloor vi)) (x :: t) x
     + (nth (Nat.min (Z.to_nat (Qfloor vi) + 1) (length (x :: t) - 1))
            (x :: t) x
        - nth (Z.to_nat (Qfloor vi)) (x :: t) x)
       * (vi - inject_Z (Qfloor vi)) /\
  nth (Z.to_nat (Qfloor vi)) (x :: t) x
  + (nth (Nat.min (Z.to_nat (Qfloor vi) + 1) (length (x :: t) - 1))
         (x :: t) x
     - nth (Z.to_nat (Qfloor vi)) (x :: t) x)
    * (vi - inject_Z (Qfloor vi))
  <= nth (Nat.min (Z.to_nat (Qfloor vi) + 1) (length (x :: t) - 1))
         (x :: t) x.
Proof.
  intros A H0 Hn.
  set (s := x :: t) in *. set (n := length s) in *.
  assert (Hn1 : (1 <= n)%nat) by (subst n s; simpl; lia).
  assert (F0 : (0 <= Qfloor vi)%Z).
  { change 0%Z with (Qfloor 0). now apply Qfloor_resp_le. }
  assert (Fn : (Qfloor vi <= Z.of_nat (n - 1))%Z).
  { rewrite <- (Qfloor_Z (Z.of_nat (n - 1))). now apply Qfloor_resp_le. }
  set (lo := Z.to_nat (Qfloor vi)).
  assert (Hlo : (lo <= n - 1)%nat) by (subst lo; lia).
  pose proof (Qfloor_le vi) as G0. pose proof (Qlt_floor vi) as G1.
  assert (G1' : vi - inject_Z (Qfloor vi) < 1).
  { rewrite inject_Z_plus in G1. change (inject_Z 1) with 1 in G1. lra. }
  assert (Hord : nth lo s x <= nth (Nat.min (lo + 1) (n - 1)) s x).
  { apply ascending_nth; [exact A|lia|fold n; lia]. }
  split; [exact Hlo|]. split; [lra|]. split; [exact G1'|]. split; nra.
Qed.

Lemma percentile_range (q : Q) :
  0 <= q -> q <= 100 -> Qle_bool 0 q && Qle_bool q 100 = true.
Proof.
  intros H0 H1. apply andb_true_iff. split; now apply Qle_bool_iff.
Qed.

Lemma virtual_index_range (n : nat) (q : Q) :
  0 <= q -> q <= 100 ->
  0 <= inject_Z (Z.of_nat n) * (q / 100) /\
  inject_Z (Z.of_nat n) * (q / 100) <= inject_Z (Z.of_nat n).
Proof.
  intros H0 H1.
  assert (0 <= inject_Z (Z.of_nat n)).
  { change 0 with (inject_Z 0). rewrite <- Zle_Qle. lia. }
  assert (0 <= q / 100) by (apply Qle_shift_div_l; lra).
  assert (q / 100 <= 1) by (apply Qle_shift_div_r; lra).
  split; nra.
Qed.

(** The percentile lies between the smallest and the largest sample. *)
Lemma np_percentile_between (a : list Q) (q : Q) :
  a <> [] -> 0 <= q -> q <= 100 ->
  exists v lowest highest,
    np_percentile a q = Some v /\
    In lowest a /\ In highest a /\
    (forall r, In r a -> lowest <= r /\ r <= highest) /\
    lowest <= v /\ v <= highest.
Proof.
  intros Ha H0 H100. unfold np_percentile.
  rewrite (percentile_range q H0 H100). cbn [negb].
  pose proof (np_sort_ascending a) as A.
  pose proof (np_sort_In a) as I.
  pose proof (np_sort_length a) as L.
  destruct (np_sort a) as [|x t] eqn:E.
  - destruct a; [congruence|discriminate L].
  - cbv zeta.
    destruct (virtual_index_range (length (x :: t) - 1) q H0 H100)
      as [V0 V1].
    destruct (interpolation_between x t _ A V0 V1)
      as (Hlo & G0 & G1 & B0 & B1).
    set (n := length (x :: t)) in *.
    set (vi := inject_Z (Z.of_nat (n - 1)) * (q / 100)) in *.
    set (lo := Z.to_nat (Qfloor vi)) in *.
    set (hi := Nat.min (lo + 1) (n - 1)) in *.
    assert (Hn1 : (1 <= n)%nat) by (subst n; simpl; lia).
    eexists. exists x, (nth (n - 1) (x :: t) x).
    split; [reflexivity|].
    split; [apply I; now left|].
    split; [apply I, nth_In; fold n; lia|].
    split.
    { intros r Hr. apply I in Hr. split.
      - destruct (In_nth _ _ x Hr) as (i & Hi & <-).
        change x with (nth 0 (x :: t) x) at 1.
        apply ascending_nth; [exact A|lia|exact Hi].
      - destruct (In_nth _ _ x Hr) as (i & Hi & <-).
        apply ascending_nth; [exact A|fold n in Hi; lia|fold n; lia]. }
    assert (Hx : x <= nth lo (x :: t) x) by now apply ascending_head_least.
    assert (Hh : nth hi (x :: t) x <= nth (n - 1) (x :: t) x).
    { apply ascending_nth; [exact A|subst hi; lia|fold n; lia]. }
    split; lra.
Qed.

(** X9. [calculate_var] gives no number on an empty return array and
    fails for every confidence level above 1 ([np.percentile] rejects the
    negative rank); for a non-empty array and a level in [0, 1] it returns
    a number. *)
Theorem calculate_var_domain (returns : list Q) (confidence_level : Q) :
  (returns = [] -> calculate_var returns confidence_level = None) /\
  (1 < confidence_level -> calculate_var returns confidence_level = None) /\
  (returns <> [] -> 0 <= confidence_level -> confidence_level <= 1 ->
   exists v, calculate_var returns confidence_level = Some v).
Proof.
  unfold calculate_var, np_percentile. repeat split.
  - intros ->. simpl. now destruct (negb _).
  - intros H.
    rewrite (Qle_bool_false_gt 0 ((1 - confidence_level) * 100)) by nra.
    reflexivity.
  - intros Ha H0 H1.
    destruct (np_percentile_defined returns ((1 - confidence_level) * 100))
      as (v & _ & Ev & _); [exact Ha|nra|nra|].
    unfold np_percentile in Ev. rewrite Ev. now eexists.
Qed.

(** X10. For a non-empty series and a confidence level in [0, 1] the
    VaR stays within the sample: the ['var'] entry of
    [calculate_risk_metrics] lies between the smallest and the largest
    return, and [calculate_var] is its negation, never beyond the worst
    loss. *)
Theorem var_within_sample_range (returns : list Q) (confidence_level : Q) :
  returns <> [] -> 0 <= confidence_level -> confidence_level <= 1 ->
  exists v lowest highest,
    get_var (calculate_risk_metrics returns confidence_level) = Some v /\
    calculate_var returns confidence_level = Some (- v) /\
    In lowest returns /\ In highest returns /\
    (forall r, In r returns -> lowest <= r /\ r <= highest) /\
    lowest <= v /\ v <= highest /\ - v <= - lowest.
Proof.
  intros Ha H0 H1.
  destruct (np_percentile_between returns ((1 - confidence_level) * 100) Ha)
    as (v & lo & hi & Ev & Hlo & Hhi & Hall & Hlv & Hvh); [nra|nra|].
  exists v, lo, hi.
  unfold calculate_risk_metrics, calculate_var. cbn [get_var]. rewrite Ev.
  repeat split; try assumption; try apply Hall; try assumption. lra.
Qed.

Lemma var_within_sample_range_witness :
  exists v lowest highest,
    get_var (calculate_risk_metrics scenario1_returns 0.8) = Some v /\
    calculate_var scenario1_returns 0.8 = Some (- v) /\
    In lowest scenario1_returns /\ In highest scenario1_returns /\
    (forall r, In r scenario1_returns -> lowest <= r /\ r <= highest) /\
    lowest <= v /\ v <= highest /\ - v <= - lowest.
Proof.
  apply (var_within_sample_range scenario1_returns 0.8).
  - discriminate.
  - vm_compute; discriminate.
  - vm_compute; discriminate.
Defined.

(** X11. [calculate_es] is NaN exactly when no return lies strictly below
    [-var]; as soon as one does, it returns a number, the negated mean of
    those returns. *)
Theorem calculate_es_nan_iff (returns : list Q) (var0 : Q) :
  (calculate_es returns var0 = None <->
   forall r, In r returns -> - var0 <= r) /\
  (forall r, In r returns -> r < - var0 ->
   exists tail,
     filter (fun x => Qltb x (- var0)) returns = tail /\ In r tail /\
     calculate_es returns var0 = Some (- (Qsum tail / Qlen tail))).
Proof.
  unfold calculate_es.
  remember (filter (fun r => Qltb r (- var0)) returns) as tail eqn:Etail.
  assert (Hin : forall r, In r returns -> r < - var0 -> In r tail).
  { intros r Hr L. subst tail. apply filter_In.
    split; [exact Hr|now apply Qltb_true]. }
  split; [split|].
  - intros E r Hr.
    destruct (Qlt_le_dec r (- var0)) as [L|G]; [|exact G]. exfalso.
    pose proof (Hin r Hr L) as F.
    destruct tail; [exact F|discriminate E].
  - intros H. subst tail. now rewrite (filter_lt_empty returns (- var0) H).
  - intros r Hr L. exists tail. split; [reflexivity|].
    pose proof (Hin r Hr L) as F. split; [exact F|].
    destruct tail as [|x t]; [destruct F|reflexivity].
Qed.

(** X12. At the confidence level 1 [calculate_var] is the negated smallest
    return, the worst loss of the sample; at the level 0 it is the negated
    largest return. *)
Theorem calculate_var_extreme_levels (returns : list Q) :
  returns <> [] ->
  exists lowest highest,
    In lowest returns /\ In highest returns /\
    (forall r, In r returns -> lowest <= r /\ r <= highest) /\
    yields (calculate_var returns 1) (- lowest) /\
    yields (calculate_var returns 0) (- highest).
Proof.
  intros Ha. unfold calculate_var, np_percentile.
  rewrite !percentile_range by (vm_compute; discriminate). cbn [negb].
  pose proof (np_sort_ascending returns) as A.
  pose proof (np_sort_In returns) as I.
  pose proof (np_sort_length returns) as L.
  destruct (np_sort returns) as [|x t] eqn:E.
  - destruct returns; [congruence|discriminate L].
  - cbv zeta. set (n := length (x :: t)).
    assert (Hn1 : (1 <= n)%nat) by (subst n; simpl; lia).
    exists x, (nth (n - 1) (x :: t) x).
    split; [apply I; now left|].
    split; [apply I, nth_In; fold n; lia|].
    split.
    { intros r Hr. apply I in Hr.
      destruct (In_nth _ _ x Hr) as (i & Hi & <-). split.
      - change x with (nth 0 (x :: t) x) at 1.
        apply ascending_nth; [exact A|lia|exact Hi].
      - apply ascending_nth; [exact A|fold n in Hi; lia|fold n; lia]. }
    split.
    + assert (V : inject_Z (Z.of_nat (n - 1)) * ((1 - 1) * 100 / 100) == 0)
        by (field).
      assert (F : Qfloor (inject_Z (Z.of_nat (n - 1)) * ((1 - 1) * 100 / 100))
                  = 0%Z) by (rewrite V; reflexivity).
      rewrite F. cbn [Z.to_nat nth option_map yields]. rewrite V.
      change (inject_Z 0) with 0. ring.
    + assert (V : inject_Z (Z.of_nat (n - 1)) * ((1 - 0) * 100 / 100)
                  == inject_Z (Z.of_nat (n - 1))) by (field).
      assert (F : Qfloor (inject_Z (Z.of_nat (n - 1)) * ((1 - 0) * 100 / 100))
                  = Z.of_nat (n - 1)) by (rewrite V; apply Qfloor_Z).
      rewrite F, Nat2Z.id.
      replace (Nat.min (n - 1 + 1) (n - 1)) with (n - 1)%nat by lia.
      cbn [option_map yields]. rewrite V. ring.
Qed.

Lemma calculate_var_extreme_levels_witness :
  exists lowest highest,
    In lowest scenario1_returns /\ In highest scenario1_returns /\
    (forall r, In r scenario1_returns -> lowest <= r /\ r <= highest) /\
    yields (calculate_var scenario1_returns 1) (- lowest) /\
    yields (calculate_var scenario1_returns 0) (- highest).
Proof.
  apply (calculate_var_extreme_levels scenario1_returns). discriminate.
Defined.

(** The percentile grows with its rank. *)
Lemma np_percentile_monotone (a : list Q) (q q' : Q) :
  a <> [] -> 0 <= q -> q <= q' -> q' <= 100 ->
  exists v v',
    np_percentile a q = Some v /\ np_percentile a q' = Some v' /\ v <= v'.
Proof.
  intros Ha H0 Hqq H100. unfold np_percentile.
  rewrite (percentile_range q), (percentile_range q') by lra. cbn [negb].
  pose proof (np_sort_ascending a) as A.
  pose proof (np_sort_length a) as L.
  destruct (np_sort a) as [|x t] eqn:E.
  - destruct a; [congruence|discriminate L].
  - cbv zeta.
    destruct (virtual_index_range (length (x :: t) - 1) q) as [V0 V1];
      [lra|lra|].
    destruct (virtual_index_range (length (x :: t) - 1) q') as [V0' V1'];
      [lra|lra|].
    destruct (interpolation_between x t _ A V0 V1)
      as (Hlo & G0 & G1 & B0 & B1).
    destruct (interpolation_between x t _ A V0' V1')
      as (Hlo' & G0' & G1' & B0' & B1').
    set (n := length (x :: t)) in *.
    assert (Hn1 : (1 <= n)%nat) by (subst n; simpl; lia).
    assert (Hv : inject_Z (Z.of_nat (n - 1)) * (q / 100)
                 <= inject_Z (Z.of_nat (n - 1)) * (q' / 100)).
    { assert (0 <= inject_Z (Z.of_nat (n - 1))).
      { change 0 with (inject_Z 0). rewrite <- Zle_Qle. lia. }
      assert (q / 100 <= q' / 100).
      { apply Qle_shift_div_r; [lra|].
        setoid_replace (q' / 100 * 100) with q' by field. exact Hqq. }
      nra. }
    set (vi := inject_Z (Z.of_nat (n - 1)) * (q / 100)) in *.
    set (vi' := inject_Z (Z.of_nat (n - 1)) * (q' / 100)) in *.
    pose proof (Qfloor_resp_le _ _ Hv) as Hf.
    assert (F0 : (0 <= Qfloor vi)%Z).
    { change 0%Z with (Qfloor 0). now apply Qfloor_resp_le. }
    do 2 eexists. split; [reflexivity|]. split; [reflexivity|].
    destruct (Z.eq_dec (Qfloor vi) (Qfloor vi')) as [Eq|Ne].
    + rewrite <- Eq in *.
      set (lo := Z.to_nat (Qfloor vi)) in *.
      set (hi := Nat.min (lo + 1) (n - 1)) in *.
      assert (Hord : nth lo (x :: t) x <= nth hi (x :: t) x).
      { apply ascending_nth; [exact A|subst hi; lia|fold n; subst hi; lia]. }
      nra.
    + set (lo := Z.to_nat (Qfloor vi)) in *.
      set (lo' := Z.to_nat (Qfloor vi')) in *.
      set (hi := Nat.min (lo + 1) (n - 1)) in *.
      assert (Hstep : (hi <= lo')%nat) by (subst hi lo lo'; lia).
      assert (Hord : nth hi (x :: t) x <= nth lo' (x :: t) x).
      { apply ascending_nth; [exact A|exact Hstep|fold n; lia]. }
      lra.
Qed.

(** X13. A higher confidence level never lowers the VaR of
    [calculate_var]: between two levels in [0, 1] the reported loss
    threshold is monotone. *)
Theorem calculate_var_monotone
  (returns : list Q) (level level' : Q) :
  returns <> [] -> 0 <= level -> level <= level' -> level' <= 1 ->
  exists v v',
    calculate_var returns level = Some v /\
    calculate_var returns level' = Some v' /\
    v <= v'.
Proof.
  intros Ha H0 Hl H1.
  destruct (np_percentile_monotone returns
              ((1 - level') * 100) ((1 - level) * 100) Ha)
    as (p' & p & Ep' & Ep & Hp); [nra|nra|nra|].
  exists (- p), (- p'). unfold calculate_var. rewrite Ep, Ep'.
  repeat split. lra.
Qed.

Lemma calculate_var_monotone_witness :
  exists v v',
    calculate_var scenario1_returns 0.8 = Some v /\
    calculate_var scenario1_returns 0.95 = Some v' /\
    v <= v'.
Proof.
  apply (calculate_var_monotone scenario1_returns 0.8 0.95);
    vm_compute; discriminate.
Defined.

(** ** Drawdowns: their range *)

Lemma cumprod_from_positive (acc : Q) (l : list Q) :
  0 < acc -> (forall x, In x l -> 0 < x) ->
  forall c, In c (cumprod_from acc l) -> 0 < c.
Proof.
  revert acc. induction l as [|x t IH]; intros acc Ha Hl c; simpl;
    [intros []|].
  assert (P : 0 < acc * x).
  { apply Qmult_lt_0_compat; [exact Ha|apply Hl; now left]. }
  intros [<-|Hc]; [exact P|].
  apply (IH (acc * x)); [exact P| |exact Hc].
  intros y Hy. apply Hl. now right.
Qed.

(** The running maximum is never below the value it runs over. *)
Lemma accumulate_from_dominates (m0 : Q) (l : list Q) :
  forall cm, In cm (combine l (accumulate_from m0 l)) ->
             fst cm <= snd cm /\ m0 <= snd cm.
Proof.
  revert m0. induction l as [|x t IH]; intros m0 cm; simpl; [intros []|].
  destruct (py_max_spec m0 x) as [[L E]|[L E]].
  - intros [<-|H]; simpl; [rewrite E; lra|].
    destruct (IH _ _ H). rewrite E in *. lra.
  - intros [<-|H]; simpl; [rewrite E; lra|].
    destruct (IH _ _ H). rewrite E in *. lra.
Qed.

(** Over returns above -100% every point of the curve is positive and at
    most its running maximum. *)
Lemma drawdown_pairs_ordered (returns : list Q) :
  Forall (fun r => -1 < r) returns ->
  forall cm,
    In cm (combine (np_cumprod (map (Qplus 1) returns))
                   (maximum_accumulate
                      (np_cumprod (map (Qplus 1) returns)))) ->
    0 < fst cm /\ fst cm <= snd cm.
Proof.
  intros Hall cm Hin.
  assert (Pc : 0 < fst cm).
  { destruct cm as [c m]. apply in_combine_l in Hin. simpl.
    unfold np_cumprod in Hin.
    apply (cumprod_from_positive 1 (map (Qplus 1) returns)); [lra| |exact Hin].
    intros y Hy. apply in_map_iff in Hy as (r & <- & Hr).
    rewrite Forall_forall in Hall. specialize (Hall r Hr). lra. }
  split; [exact Pc|].
  destruct (np_cumprod (map (Qplus 1) returns)) as [|c0 rest];
    [destruct Hin|].
  cbn [maximum_accumulate combine] in Hin.
  destruct Hin as [<-|Hin]; [simpl; lra|].
  now apply (accumulate_from_dominates c0 rest).
Qed.

(** The curve as numbers, when no running maximum is zero. *)
Lemma drawdowns_finite (returns : list Q) :
  (forall cm,
      In cm (combine (np_cumprod (map (Qplus 1) returns))
                     (maximum_accumulate
                        (np_cumprod (map (Qplus 1) returns)))) ->
      ~ snd cm == 0) ->
  drawdowns returns =
  map Some (map (fun cm => (fst cm - snd cm) / snd cm)
                (combine (np_cumprod (map (Qplus 1) returns))
                         (maximum_accumulate
                            (np_cumprod (map (Qplus 1) returns))))) /\
  all_finite (drawdowns returns) =
  Some (map (fun cm => (fst cm - snd cm) / snd cm)
            (combine (np_cumprod (map (Qplus 1) returns))
                     (maximum_accumulate
                        (np_cumprod (map (Qplus 1) returns))))).
Proof.
  intros H. unfold drawdowns. apply all_finite_map.
  intros cm Hin. apply py_div_defined. now apply H.
Qed.

Lemma drawdown_pairs_nonempty (returns : list Q) :
  returns <> [] ->
  combine (np_cumprod (map (Qplus 1) returns))
          (maximum_accumulate (np_cumprod (map (Qplus 1) returns))) <> [].
Proof.
  destruct returns as [|r0 rest]; [congruence|]. intros _. discriminate.
Qed.



(** While no return is negative, the curve makes a new high every period. *)
Lemma accumulate_from_tracks (acc m0 : Q) (l : list Q) :
  0 < acc -> m0 == acc -> (forall x, In x l -> 1 <= x) ->
  forall cm,
    In cm (combine (cumprod_from acc l)
                   (accumulate_from m0 (cumprod_from acc l))) ->
    snd cm == fst cm.
Proof.
  revert acc m0. induction l as [|x t IH]; intros acc m0 Ha Em Hl cm;
    simpl; [intros []|].
  assert (Hx : 1 <= x) by (apply Hl; now left).
  assert (Hstep : py_max m0 (acc * x) == acc * x).
  { destruct (py_max_spec m0 (acc * x)) as [[_ ->]|[L ->]]; [reflexivity|].
    nra. }
  intros [<-|H]; [exact Hstep|].
  apply (IH (acc * x) (py_max m0 (acc * x))); [nra|exact Hstep| |exact H].
  intros y Hy. apply Hl. now right.
Qed.

(** X15. A series without a losing period has no drawdown: when every
    return is non-negative, [max_drawdown] and [avg_drawdown] are both 0. *)
Theorem no_loss_no_drawdown (returns : list Q) :
  returns <> [] -> Forall (fun r => 0 <= r) returns ->
  yields (get_max_drawdown (analyze_drawdowns returns)) 0 /\
  yields (get_avg_drawdown (analyze_drawdowns returns)) 0.
Proof.
  intros Hne Hall.
  assert (Hall' : Forall (fun r => -1 < r) returns).
  { rewrite Forall_forall in *. intros r Hr. specialize (Hall r Hr). lra. }
  pose proof (drawdown_pairs_ordered returns Hall') as Hord.
  pose proof (drawdown_pairs_nonempty returns Hne) as Hpairs.
  assert (Htrack : forall cm,
             In cm (combine (np_cumprod (map (Qplus 1) returns))
                            (maximum_accumulate
                               (np_cumprod (map (Qplus 1) returns)))) ->
             snd cm == fst cm).
  { destruct returns as [|r0 rest]; [congruence|].
    unfold np_cumprod. cbn [map cumprod_from maximum_accumulate combine].
    intros cm [<-|Hin]; [reflexivity|].
    assert (H0 : 0 <= r0) by (inversion Hall; assumption).
    apply (accumulate_from_tracks (1 * (1 + r0)) (1 * (1 + r0))
             (map (Qplus 1) rest)); [lra|reflexivity| |exact Hin].
    intros y Hy. apply in_map_iff in Hy as (r & <- & Hr).
    inversion Hall as [|? ? _ Hrest]; subst.
    rewrite Forall_forall in Hrest. specialize (Hrest r Hr). lra. }
  destruct (drawdowns_finite returns) as [_ Efin].
  { intros cm Hin. destruct (Hord cm Hin). lra. }
  set (pairs := combine _ _) in *. clearbody pairs.
  set (g := fun cm : Q * Q => (fst cm - snd cm) / snd cm) in *.
  assert (Hzero : forall d, In d (map g pairs) -> d == 0).
  { intros d Hd. apply in_map_iff in Hd as (cm & <- & Hin).
    destruct (Hord cm Hin) as [Pc Pm]. specialize (Htrack cm Hin).
    subst g. cbv beta. rewrite Htrack. field. lra. }
  unfold analyze_drawdowns, np_min, np_array_mean.
  cbn [get_max_drawdown get_avg_drawdown]. rewrite Efin. cbn [bind].
  destruct (map g pairs) as [|d0 dt] eqn:Ec.
  { destruct pairs; [congruence|discriminate Ec]. }
  cbn [np_mean yields]. split.
  - apply Hzero, minimum_from_In.
  - destruct (mean_between (d0 :: dt) 0 0) as [M0 M1]; [discriminate| |].
    { intros r Hr. specialize (Hzero r Hr). lra. }
    lra.
Qed.

Lemma no_loss_no_drawdown_witness :
  yields (get_max_drawdown (analyze_drawdowns [0.01; 0; 0.02])) 0 /\
  yields (get_avg_drawdown (analyze_drawdowns [0.01; 0; 0.02])) 0.
Proof.
  apply (no_loss_no_drawdown [0.01; 0; 0.02]).
  - discriminate.
  - repeat constructor; vm_compute; discriminate.
Defined.

(** ** Total return *)

Lemma Qprod_nonneg (l : list Q) :
  (forall x, In x l -> 0 <= x) -> 0 <= Qprod l.
Proof.
  induction l as [|x t IH]; intros H; simpl; [lra|].
  apply Qmult_le_0_compat; [apply H; now left|].
  apply IH. intros y Hy. apply H. now right.
Qed.

Lemma Qprod_at_least_one (l : list Q) :
  (forall x, In x l -> 1 <= x) -> 1 <= Qprod l.
Proof.
  induction l as [|x t IH]; intros H; simpl; [lra|].
  assert (1 <= x) by (apply H; now left).
  assert (1 <= Qprod t) by (apply IH; intros y Hy; apply H; now right).
  nra.
Qed.

(** X16. [analyze_returns] raises on an empty array (the division by
    [len(returns)]) and reports a total return otherwise, the one
    [calculate_metrics] reports.  That total return is never below -100%
    when no return is, and never negative when no return is. *)
Theorem total_return_floors (returns : list Q) :
  (analyze_returns_total_return returns = None <-> returns = []) /\
  (returns <> [] ->
   analyze_returns_total_return returns
   = Some (calculate_metrics_total_return returns)) /\
  (Forall (fun r => -1 <= r) returns ->
   -1 <= calculate_metrics_total_return returns) /\
  (Forall (fun r => 0 <= r) returns ->
   0 <= calculate_metrics_total_return returns).
Proof.
  unfold analyze_returns_total_return, calculate_metrics_total_return.
  repeat split.
  - destruct returns; [reflexivity|discriminate].
  - now intros ->.
  - destruct returns; [congruence|reflexivity].
  - intros H. rewrite Forall_forall in H.
    assert (0 <= Qprod (map (Qplus 1) returns)); [|lra].
    apply Qprod_nonneg. intros y Hy.
    apply in_map_iff in Hy as (r & <- & Hr). specialize (H r Hr). lra.
  - intros H. rewrite Forall_forall in H.
    assert (1 <= Qprod (map (Qplus 1) returns)); [|lra].
    apply Qprod_at_least_one. intros y Hy.
    apply in_map_iff in Hy as (r & <- & Hr). specialize (H r Hr). lra.
Qed.

(** ** Trade and position analysis *)

Lemma Qsum_abs_nonneg (l : list Q) : 0 <= Qsum (map Qabs l).
Proof.
  induction l as [|s t IH]; simpl; [lra|].
  pose proof (Qabs_nonneg s). lra.
Qed.

Lemma diff_from_length (previous : Q) (a : list Q) :
  length (diff_from previous a) = length a.
Proof.
  revert previous. induction a as [|x t IH]; intros p; simpl; [reflexivity|].
  now rewrite IH.
Qed.

(** No entry of the difference is non-zero exactly when the array keeps
    the value it starts from. *)
Lemma diff_from_all_zero (previous : Q) (a : list Q) :
  Forall (fun t => t == 0) (diff_from previous a) <->
  Forall (fun p => p == previous) a.
Proof.
  revert previous. induction a as [|x t IH]; intros p; simpl.
  - split; constructor.
  - split; intros H; inversion H as [|? ? Hx Ht]; subst; constructor.
    + lra.
    + apply IH in Ht. rewrite Forall_forall in *. intros y Hy.
      specialize (Ht y Hy). lra.
    + lra.
    + apply IH. rewrite Forall_forall in *. intros y Hy.
      specialize (Ht y Hy). lra.
Qed.

Lemma select_where_None (a : list Q) (mask : list bool) :
  select_where a mask = None <-> length a <> length mask.
Proof.
  revert mask. induction a as [|x t IH]; intros [|b m]; simpl;
    try (split; [discriminate|congruence]);
    try (split; [intros _; discriminate|reflexivity]).
  specialize (IH m). destruct (select_where t m) as [l|]; simpl.
  - split; [discriminate|]. intros N. exfalso.
    assert (length t <> length m) by congruence.
    apply IH in H. discriminate H.
  - split; [intros _|reflexivity].
    assert (length t <> length m) by now apply IH. congruence.
Qed.

Lemma select_where_spec (a : list Q) (mask : list bool) (l : list Q) :
  select_where a mask = Some l ->
  (length l <= length a)%nat /\
  (forall r, In r l -> In r a) /\
  (l = [] <-> Forall (fun b => b = false) mask).
Proof.
  revert mask l. induction a as [|x t IH]; intros [|b m] l; simpl;
    try discriminate.
  - intros E. injection E as <-. split; [simpl; lia|]. split; [tauto|].
    split; constructor.
  - destruct (select_where t m) as [l'|] eqn:E'; simpl; [|discriminate].
    intros E. injection E as <-.
    destruct (IH m l' E') as (Hlen & Hin & Hnil).
    destruct b.
    + split; [simpl; lia|]. split.
      * intros r [<-|Hr]; [now left|right; now apply Hin].
      * split; [discriminate|]. intros F. inversion F. discriminate.
    + split; [lia|]. split; [intros r Hr; right; now apply Hin|].
      rewrite Hnil. split; intros F; [now constructor|now inversion F].
Qed.

(** What a mask selects lies in the array, whatever the mask. *)
Lemma mask_select_spec (a : list Q) (mask : list bool) (l : list Q) :
  mask_select a mask = Some l ->
  (length l <= length a)%nat /\
  (forall r, In r l -> In r a) /\
  (l = [] <-> Forall (fun b => b = false) mask).
Proof.
  destruct mask as [|b m].
  - intros E. injection E as <-. split; [simpl; lia|].
    split; [intros r []|]. split; constructor.
  - apply select_where_spec.
Qed.

Lemma mask_select_None (a : list Q) (mask : list bool) :
  mask_select a mask = None <-> mask <> [] /\ length a <> length mask.
Proof.
  destruct mask as [|b m].
  - split; [discriminate|]. intros [N _]. congruence.
  - cbn [mask_select]. rewrite select_where_None.
    split; [intros N; split; [discriminate|exact N]|now intros [_ N]].
Qed.

(** X17. [analyze_trades] raises [IndexError] exactly when there are
    positions and the two arrays differ in length; it raises [ValueError]
    exactly when there is no position at all (numpy selects nothing with
    the empty mask, whatever the returns) or when the arrays have one
    length and every position is 0: a run without a single position change
    cannot be analysed. *)
Theorem analyze_trades_failures (returns positions : list Q) :
  (analyze_trades returns positions = Raise IndexError <->
   positions <> [] /\ length returns <> length positions) /\
  (analyze_trades returns positions = Raise ValueError <->
   positions = [] \/
   (length returns = length positions /\
    Forall (fun p => p == 0) positions)).
Proof.
  unfold analyze_trades.
  set (mask := map (fun t => negb (Qeq_bool t 0)) (np_diff_prepend0 positions)).
  assert (Lm : length mask = length positions).
  { subst mask. unfold np_diff_prepend0.
    now rewrite length_map, diff_from_length. }
  assert (Hm : Forall (fun b => b = false) mask <->
               Forall (fun p => p == 0) positions).
  { subst mask. unfold np_diff_prepend0.
    rewrite <- (diff_from_all_zero 0 positions), Forall_map.
    split; intros F; rewrite Forall_forall in *; intros t Ht;
      specialize (F t Ht); cbv beta in *.
    - apply negb_false_iff in F. now apply Qeq_bool_eq.
    - apply negb_false_iff. now apply Qeq_eq_bool. }
  assert (Hnil : mask = [] <-> positions = []).
  { destruct mask, positions; simpl in Lm; split; congruence. }
  clearbody mask.
  pose proof (mask_select_None returns mask) as HN.
  destruct (mask_select returns mask) as [l|] eqn:E.
  - destruct (mask_select_spec returns mask l E) as (_ & _ & Hl).
    assert (Hlen : mask = [] \/ length returns = length mask).
    { destruct mask as [|b m]; [now left|right].
      destruct (Nat.eq_dec (length returns) (length (b :: m))) as [e|n];
        [exact e|].
      assert (N : Some l = None) by (apply HN; split; [discriminate|exact n]).
      discriminate N. }
    split.
    + split; [destruct l; discriminate|]. intros [Hp N].
      destruct Hlen as [M|L]; [apply Hnil in M; contradiction|congruence].
    + split.
      * intros V. assert (l = []) by (destruct l; [reflexivity|discriminate]).
        destruct Hlen as [M|L]; [left; now apply Hnil|right].
        split; [congruence|]. apply Hm, Hl. assumption.
      * intros [Hp|[_ F]].
        -- apply Hnil in Hp. subst mask. injection E as <-. reflexivity.
        -- apply Hm, Hl in F. now subst l.
  - destruct HN as [HN _]. destruct (HN eq_refl) as [Hne Hlen].
    assert (Hp : positions <> []) by (intros P; apply Hne, Hnil, P).
    split.
    + split; [intros _; split; [exact Hp|congruence]|reflexivity].
    + split; [discriminate|]. intros [P|[L _]]; [contradiction|congruence].
Qed.

Lemma py_max_upper_r (m x : Q) : x <= py_max m x.
Proof. destruct (py_max_spec m x) as [[? ->]|[? ->]]; lra. Qed.

Lemma maximum_from_ge_start (m : Q) (a : list Q) : m <= maximum_from m a.
Proof.
  revert m. induction a as [|x t IH]; intros m; simpl; [lra|].
  pose proof (IH (py_max m x)). pose proof (py_max_lower m x). lra.
Qed.

Lemma maximum_from_ge (m : Q) (a : list Q) (y : Q) :
  In y a -> y <= maximum_from m a.
Proof.
  revert m. induction a as [|x t IH]; intros m; simpl; [intros []|].
  intros [<-|Hy].
  - pose proof (maximum_from_ge_start (py_max m x) t).
    pose proof (py_max_upper_r m x). lra.
  - now apply IH.
Qed.

Lemma filter_Qlen (cond : Q -> bool) (a : list Q) :
  0 <= Qlen (filter cond a) /\ Qlen (filter cond a) <= Qlen a.
Proof.
  split; [apply Qlen_nonneg|].
  unfold Qlen. rewrite <- Zle_Qle. apply Nat2Z.inj_le, filter_length_le.
Qed.

Lemma share_range (cond : Q -> bool) (a : list Q) :
  a <> [] -> 0 <= share cond a /\ share cond a <= 1.
Proof.
  intros Hne. unfold share.
  pose proof (Qlen_positive a Hne). destruct (filter_Qlen cond a).
  split; [apply Qle_shift_div_l|apply Qle_shift_div_r]; lra.
Qed.

Lemma maximum_from_In (m : Q) (a : list Q) : In (maximum_from m a) (m :: a).
Proof.
  revert m. induction a as [|x t IH]; intros m; simpl; [now left|].
  destruct (IH (py_max m x)) as [E|H]; [|right; now right].
  rewrite <- E.
  destruct (py_max_spec m x) as [[_ ->]|[_ ->]]; [right|]; now left.
Qed.

(** X18. Whenever [analyze_trades] returns, its dict is coherent: there
    is at least one trade and no more than there are periods, the win rate
    lies in [0, 1], and the best and the worst trade are returns of the
    series, the worst no larger than the best. *)
Theorem analyze_trades_coherent
  (returns positions : list Q) (d : TradeDict) :
  analyze_trades returns positions = Done d ->
  (1 <= get_num_trades d <= length returns)%nat /\
  0 <= get_win_rate d /\ get_win_rate d <= 1 /\
  In (get_best_trade d) returns /\ In (get_worst_trade d) returns /\
  get_worst_trade d <= get_best_trade d.
Proof.
  unfold analyze_trades.
  destruct (mask_select returns _) as [[|x t]|] eqn:E; try discriminate.
  intros D. injection D as <-.
  destruct (mask_select_spec _ _ _ E) as (Hlen & Hin & _).
  cbn [get_num_trades get_win_rate get_worst_trade get_best_trade].
  split; [simpl in *; lia|].
  destruct (share_range (fun r => Qltb 0 r) (x :: t)) as [S0 S1];
    [discriminate|].
  split; [exact S0|]. split; [exact S1|].
  split; [|split].
  - apply Hin, maximum_from_In.
  - apply Hin, minimum_from_In.
  - pose proof (minimum_from_le_start x t).
    pose proof (maximum_from_ge_start x t). lra.
Qed.

Lemma analyze_trades_coherent_witness :
  exists d,
    analyze_trades returns_four positions_four = Done d /\
    (1 <= get_num_trades d <= length returns_four)%nat /\
    0 <= get_win_rate d /\ get_win_rate d <= 1 /\
    In (get_best_trade d) returns_four /\
    In (get_worst_trade d) returns_four /\
    get_worst_trade d <= get_best_trade d.
Proof.
  eexists. split; [reflexivity|].
  apply (analyze_trades_coherent returns_four positions_four). reflexivity.
Defined.

Ltac reflect_comparisons :=
  repeat match goal with
         | H : Qltb _ _ = true |- _ => apply Qltb_true in H
         | H : Qltb _ _ = false |- _ => apply Qltb_false in H
         | H : Qeq_bool _ _ = true |- _ => apply Qeq_bool_eq in H
         | H : Qeq_bool _ _ = false |- _ => apply Qeq_bool_neq in H
         end.

Lemma filter_Qlen_le (f g : Q -> bool) (a : list Q) :
  (forall x, f x = true -> g x = true) ->
  Qlen (filter f a) <= Qlen (filter g a).
Proof.
  intros Hfg. induction a as [|x t IH]; [apply Qle_refl|]. cbn [filter].
  destruct (f x) eqn:Ef.
  - rewrite (Hfg x Ef), !Qlen_cons. lra.
  - destruct (g x); rewrite ?Qlen_cons; lra.
Qed.

Lemma share_le (f g : Q -> bool) (a : list Q) :
  a <> [] -> (forall x, f x = true -> g x = true) ->
  share f a <= share g a.
Proof.
  intros Hne Hfg. unfold share.
  pose proof (Qlen_positive a Hne) as P.
  pose proof (filter_Qlen_le f g a Hfg) as L.
  apply Qle_shift_div_l; [exact P|].
  setoid_replace (Qlen (filter f a) / Qlen a * Qlen a)
    with (Qlen (filter f a)) by (field; lra).
  exact L.
Qed.

(** X19. [analyze_positions] raises [ValueError] exactly on an empty
    array.  Whenever it returns, the long ratio and the short ratio are
    each between 0 and the time in market, which is at most 1; the average
    position size is not negative; and the largest position size is the
    magnitude of one of the positions, below none of the others. *)
Theorem analyze_positions_coherent (positions : list Q) :
  (analyze_positions positions = Raise ValueError <-> positions = []) /\
  (forall d,
      analyze_positions positions = Done d ->
      0 <= get_long_ratio d /\ get_long_ratio d <= get_time_in_market d /\
      0 <= get_short_ratio d /\ get_short_ratio d <= get_time_in_market d /\
      get_time_in_market d <= 1 /\
      0 <= get_avg_position d /\
      (exists p, In p positions /\ get_max_position d = Qabs p) /\
      (forall p, In p positions -> Qabs p <= get_max_position d)).
Proof.
  unfold analyze_positions. split.
  - destruct positions as [|p t]; simpl; split; congruence.
  - intros d. destruct positions as [|p t]; [discriminate|].
    cbn [map]. intros D. injection D as <-.
    cbn [get_long_ratio get_short_ratio get_time_in_market get_avg_position
         get_max_position].
    assert (Hne : p :: t <> []) by discriminate.
    pose proof (Qlen_positive _ Hne) as P.
    destruct (share_range (fun q => negb (Qeq_bool q 0)) (p :: t) Hne)
      as [T0 T1].
    destruct (share_range (fun q => Qltb 0 q) (p :: t) Hne) as [L0 _].
    destruct (share_range (fun q => Qltb q 0) (p :: t) Hne) as [S0 _].
    split; [exact L0|]. split.
    { apply share_le; [exact Hne|]. intros x Hx. reflect_comparisons.
      apply negb_true_iff, Qeq_bool_false. lra. }
    split; [exact S0|]. split.
    { apply share_le; [exact Hne|]. intros x Hx. reflect_comparisons.
      apply negb_true_iff, Qeq_bool_false. lra. }
    split; [exact T1|]. split.
    { change (Qabs p :: map Qabs t) with (map Qabs (p :: t)).
      pose proof (Qsum_abs_nonneg (p :: t)) as A.
      assert (PL : 0 < Qlen (map Qabs (p :: t)))
        by (unfold Qlen in *; now rewrite length_map).
      apply Qle_shift_div_l; [exact PL|rewrite Qmult_0_l; exact A]. }
    split.
    { destruct (maximum_from_In (Qabs p) (map Qabs t)) as [E|H].
      - exists p. split; [now left|now symmetry].
      - apply in_map_iff in H as (q & Eq & Hq). exists q.
        split; [now right|now symmetry]. }
    intros q [<-|Hq]; [apply maximum_from_ge_start|].
    apply maximum_from_ge. now apply in_map.
Qed.

(** ** Position sizes under a risk limit *)

Lemma finite_entries_Fin (ds : list Q) : finite_entries (map Fin ds) = Some ds.
Proof.
  induction ds as [|d t IH]; simpl; [reflexivity|]. now rewrite IH.
Qed.

(** A size scaled by a factor between 0 and 1 keeps its side and does not
    grow. *)
Lemma scaled_size_within (s limit total : Q) :
  0 <= limit -> limit < total ->
  Qabs (s * limit / total) <= Qabs s /\ 0 <= s * limit / total * s.
Proof.
  intros HL HT.
  assert (K0 : 0 <= limit / total) by (apply Qle_shift_div_l; lra).
  assert (K1 : limit / total <= 1) by (apply Qle_shift_div_r; lra).
  setoid_replace (s * limit / total) with (s * (limit / total))
    by (field; lra).
  split.
  - rewrite Qabs_Qmult, (Qabs_pos _ K0). pose proof (Qabs_nonneg s). nra.
  - nra.
Qed.

(** X20. For finite directions and a risk limit that is not negative,
    [calculate_position_sizes] returns one size per direction, and the
    scaling never enlarges a position nor turns it around: each size is no
    larger in magnitude than the direction times [max_position], and is on
    the same side of zero.  (The sizes add up to the risk limit only up to
    rounding: in binary64 the directions -1 and 0.4 under the limit 0.02
    give sizes that add up to 0.020000000000000004, so no bound on the
    total is stated.) *)
Theorem position_sizes_scaled
  (signal : TradingSignal) (directions : list Q)
  (max_position risk_limit : Q) :
  0 <= risk_limit -> direction signal = map Fin directions ->
  exists sizes,
    calculate_position_sizes signal max_position risk_limit = Some sizes /\
    Forall2 (fun s d => Qabs s <= Qabs (d * max_position) /\
                        0 <= s * (d * max_position))
            sizes directions.
Proof.
  intros HL Ed. unfold calculate_position_sizes.
  rewrite Ed, finite_entries_Fin. cbn [bind].
  set (raw := map (fun d => d * max_position) directions).
  pose proof (Qsum_abs_nonneg raw) as T0.
  destruct (Qltb risk_limit (Qsum (map Qabs raw))) eqn:E.
  - apply Qltb_true in E.
    rewrite (Qeq_bool_false (Qsum (map Qabs raw)) 0) by lra.
    set (total_risk := Qsum (map Qabs raw)) in *. clearbody total_risk.
    eexists. split; [reflexivity|].
    subst raw. rewrite map_map. apply Forall2_map_graph.
    intros d _. apply scaled_size_within; assumption.
  - eexists. split; [reflexivity|].
    subst raw. apply Forall2_map_graph. intros d _.
    split; [apply Qle_refl|]. nra.
Qed.

Lemma position_sizes_scaled_witness :
  exists sizes,
    calculate_position_sizes signal_two_legs 1 0.02 = Some sizes /\
    Forall2 (fun s d => Qabs s <= Qabs (d * 1) /\ 0 <= s * (d * 1))
            sizes [-1; 1.5].
Proof.
  apply (position_sizes_scaled signal_two_legs [-1; 1.5] 1 0.02).
  - vm_compute; discriminate.
  - reflexivity.
Defined.

(** X21. A negative risk limit is always exceeded, and the scaling then
    turns every position around: a long raw size comes back short, a short
    one long, a zero one zero.  When all raw sizes are zero the quotient
    is 0/0 and no list of sizes comes back, unless there is no direction
    at all. *)
Theorem position_sizes_negative_limit
  (signal : TradingSignal) (directions : list Q)
  (max_position risk_limit : Q) :
  risk_limit < 0 -> direction signal = map Fin directions ->
  (Qsum (map Qabs (map (fun d => d * max_position) directions)) == 0 ->
   calculate_position_sizes signal max_position risk_limit =
   match directions with [] => Some [] | _ :: _ => None end) /\
  (~ Qsum (map Qabs (map (fun d => d * max_position) directions)) == 0 ->
   exists sizes,
     calculate_position_sizes signal max_position risk_limit = Some sizes /\
     Forall2 (fun s d => (0 < d * max_position -> s < 0) /\
                         (d * max_position < 0 -> 0 < s) /\
                         (d * max_position == 0 -> s == 0))
             sizes directions).
Proof.
  intros HL Ed. unfold calculate_position_sizes.
  rewrite Ed, finite_entries_Fin. cbn [bind].
  set (raw := map (fun d => d * max_position) directions).
  pose proof (Qsum_abs_nonneg raw) as T0.
  assert (E : Qltb risk_limit (Qsum (map Qabs raw)) = true)
    by (apply Qltb_true; lra).
  rewrite E. split.
  - intros Z. rewrite (Qeq_eq_bool _ _ Z). subst raw.
    now destruct directions.
  - intros NZ. rewrite (Qeq_bool_false _ _ NZ).
    assert (P : 0 < Qsum (map Qabs raw)) by lra.
    set (total_risk := Qsum (map Qabs raw)) in *. clearbody total_risk.
    assert (K : 0 < (- risk_limit) / total_risk)
      by (apply Qlt_shift_div_l; lra).
    eexists. split; [reflexivity|].
    subst raw. rewrite map_map. apply Forall2_map_graph.
    intros d _.
    setoid_replace (d * max_position * risk_limit / total_risk)
      with (- (d * max_position * ((- risk_limit) / total_risk)))
      by (field; lra).
    repeat split; intros H; nra.
Qed.

Lemma position_sizes_negative_limit_witness :
  exists sizes,
    calculate_position_sizes signal_two_legs 1 (-0.02) = Some sizes /\
    Forall2 (fun s d => (0 < d * 1 -> s < 0) /\
                        (d * 1 < 0 -> 0 < s) /\
                        (d * 1 == 0 -> s == 0))
            sizes [-1; 1.5].
Proof.
  destruct (position_sizes_negative_limit signal_two_legs [-1; 1.5] 1 (-0.02))
    as [_ H]; [reflexivity|reflexivity|].
  apply H. vm_compute. discriminate.
Defined.

(** ** Risk monitoring *)

Lemma portfolio_value_done (positions : dict Q) (prices : dict (list Q)) :
  (exists v, portfolio_value positions prices = Done v) <->
  (forall asset pos,
      In (asset, pos) positions ->
      exists column price,
        dict_get prices asset = Some column /\
        iloc_last column = Some price).
Proof.
  induction positions as [|[a p] t IH]; cbn [portfolio_value].
  - split; [intros _ ? ? []|intros _; now eexists].
  - split.
    + intros [v E] asset pos [Hin|Hin].
      * injection Hin as <- <-.
        destruct (dict_get prices a) as [col|]; [|discriminate].
        destruct (iloc_last col) as [price|] eqn:El; [|discriminate].
        now exists col, price.
      * destruct IH as [IH _]. apply (IH) with (pos := pos); [|exact Hin].
        destruct (dict_get prices a) as [col|]; [|discriminate].
        destruct (iloc_last col) as [price|]; [|discriminate].
        destruct (portfolio_value t prices) as [w|]; [|discriminate].
        now exists w.
    + intros H.
      destruct (H a p (or_introl eq_refl)) as (col & price & -> & ->).
      destruct IH as [_ IH]. destruct IH as [w ->].
      * intros asset pos Hin. apply (H asset pos). now right.
      * now eexists.
Qed.

(** X22. [monitor_risks] returns exactly when every asset of the positions
    has a price column with at least one row ([KeyError] or [IndexError]
    otherwise, zero positions included); the report then carries the
    positions unchanged and a risk exposure that is not negative. *)
Theorem monitor_risks_returns_iff
  (positions : dict Q) (prices : dict (list Q)) :
  ((exists report, monitor_risks positions prices = Done report) <->
   (forall asset pos,
       In (asset, pos) positions ->
       exists column price,
         dict_get prices asset = Some column /\
         iloc_last column = Some price)) /\
  (forall report,
      monitor_risks positions prices = Done report ->
      get_position_sizes report = positions /\
      get_risk_exposure report = Qsum (map Qabs (map snd positions)) /\
      0 <= get_risk_exposure report).
Proof.
  unfold monitor_risks. split.
  - rewrite <- portfolio_value_done.
    destruct (portfolio_value positions prices) as [v|e].
    + split; intros _; now eexists.
    + split; intros [? E]; discriminate E.
  - intros report.
    destruct (portfolio_value positions prices) as [v|e]; [|discriminate].
    intros E. injection E as <-. cbn [get_position_sizes get_risk_exposure].
    repeat split. apply Qsum_abs_nonneg.
Qed.

(** ** Signals: direction and short histories *)

(** X24. With a positive threshold, a pair whose z-score is
    above the threshold is sold against its hedge (directions -1 and
    [hedge_ratio]), one whose z-score is below minus the threshold is
    bought (1 and [-hedge_ratio]), and between the two no signal is
    returned. *)
Theorem pairs_signal_legs (pair : PairAnalysis) (zscore_threshold : Q) :
  0 < zscore_threshold ->
  (zscore_threshold < zscore pair ->
   exists s,
     generate_pairs_signal pair zscore_threshold = Some s /\
     Forall2 xyields (direction s) [-1; hedge_ratio pair] /\
     assets s = [asset_a pair; asset_b pair]) /\
  (zscore pair < - zscore_threshold ->
   exists s,
     generate_pairs_signal pair zscore_threshold = Some s /\
     Forall2 xyields (direction s) [1; - hedge_ratio pair] /\
     assets s = [asset_a pair; asset_b pair]) /\
  (- zscore_threshold <= zscore pair -> zscore pair <= zscore_threshold ->
   generate_pairs_signal pair zscore_threshold = None).
Proof.
  intros Ht. unfold generate_pairs_signal. cbn [x_abs x_gt].
  repeat split.
  - intros H.
    assert (G : Qltb zscore_threshold (Qabs (zscore pair)) = true).
    { apply Qltb_true. rewrite Qabs_pos by lra. exact H. }
    rewrite G. eexists. split; [reflexivity|]. split; [|reflexivity].
    cbn [direction]. unfold np_sign.
    assert (A : Qltb (zscore pair) 0 = false) by (apply Qltb_false; lra).
    assert (B : Qltb 0 (zscore pair) = true) by (apply Qltb_true; lra).
    rewrite A, B. repeat constructor; cbn [xyields]; ring.
  - intros H.
    assert (G : Qltb zscore_threshold (Qabs (zscore pair)) = true).
    { apply Qltb_true. rewrite Qabs_neg by lra. lra. }
    rewrite G. eexists. split; [reflexivity|]. split; [|reflexivity].
    cbn [direction]. unfold np_sign.
    assert (A : Qltb (zscore pair) 0 = true) by (apply Qltb_true; lra).
    rewrite A. repeat constructor; cbn [xyields]; ring.
  - intros H1 H2.
    assert (G : Qltb zscore_threshold (Qabs (zscore pair)) = false).
    { apply Qltb_false. apply Qabs_Qle_condition. split; assumption. }
    now rewrite G.
Qed.

Lemma pairs_signal_legs_witness :
  exists s,
    generate_pairs_signal pair_three_sigma 2 = Some s /\
    Forall2 xyields (direction s) [-1; hedge_ratio pair_three_sigma] /\
    assets s = [asset_a pair_three_sigma; asset_b pair_three_sigma].
Proof.
  assert (Ht : 0 < 2) by reflexivity.
  destruct (pairs_signal_legs pair_three_sigma 2 Ht) as (H & _ & _).
  apply H. reflexivity.
Defined.

(** X25. [generate_mean_reversion_signal] raises [IndexError] on an empty
    price series.  On a non-empty one with fewer prices than [lookback], or
    with a [lookback] of at most 1, the rolling statistics are NaN and it
    returns [None], whatever the threshold. *)
Theorem mean_reversion_short_history
  (np_sqrt : Q -> Q) (prices : Series) (lookback : nat)
  (zscore_threshold : Q) :
  (values prices = [] ->
   generate_mean_reversion_signal np_sqrt prices lookback zscore_threshold
   = RaisesIndexError) /\
  (values prices <> [] ->
   (length (values prices) < lookback)%nat \/ (lookback <= 1)%nat ->
   generate_mean_reversion_signal np_sqrt prices lookback zscore_threshold
   = Returns None).
Proof.
  unfold generate_mean_reversion_signal, zscore_last. split.
  - now intros ->.
  - intros Hne Hshort.
    destruct (rev (values prices)) as [|p r] eqn:Er.
    { exfalso. apply Hne. rewrite <- (rev_involutive (values prices)), Er.
      reflexivity. }
    assert (Z : match rolling_mean_last (values prices) lookback,
                      rolling_std_last np_sqrt (values prices) lookback with
                | Some m, Some sd => x_div (Fin (p - m)) sd
                | _, _ => NaN
                end = NaN).
    { unfold rolling_mean_last, rolling_std_last, last_window.
      destruct Hshort as [Hs|Hs].
      - assert (E : (lookback <=? length (values prices))%nat = false)
          by (apply Nat.leb_gt; exact Hs).
        rewrite E, andb_false_r. reflexivity.
      - destruct ((1 <=? lookback)%nat
                  && (lookback <=? length (values prices))%nat)%bool;
          cbn [bind]; [|reflexivity].
        destruct (np_mean _) as [m|]; cbn [bind]; [|reflexivity].
        assert (E : (lookback <=? 1)%nat = true) by (apply Nat.leb_le; exact Hs).
        now rewrite E. }
    rewrite Z. reflexivity.
Qed.


(** X28. The mean-reversion signal is contrarian: over a positive rolling
    deviation, a signal returned while the last price is above its rolling
    mean has the direction -1, and one returned while it is below has the
    direction 1. *)
Theorem mean_reversion_contrarian
  (np_sqrt : Q -> Q) (prices : Series) (lookback : nat)
  (zscore_threshold : Q) (s : TradingSignal) (p m sd : Q) (earlier : list Q) :
  rev (values prices) = p :: earlier ->
  rolling_mean_last (values prices) lookback = Some m ->
  rolling_std_last np_sqrt (values prices) lookback = Some sd ->
  0 < sd ->
  generate_mean_reversion_signal np_sqrt prices lookback zscore_threshold
  = Returns (Some s) ->
  (m < p -> Forall2 xyields (direction s) [-1]) /\
  (p < m -> Forall2 xyields (direction s) [1]).
Proof.
  intros Er Em Es Hsd.
  unfold generate_mean_reversion_signal, zscore_last.
  rewrite Er, Em, Es. cbn [x_div].
  rewrite (Qeq_bool_false sd 0) by lra.
  destruct (x_gt (x_abs (Fin ((p - m) / sd))) zscore_threshold);
    [|discriminate].
  intros E. injection E as <-. cbn [direction x_sign x_opp].
  unfold np_sign. split; intros H.
  - assert (Z : 0 < (p - m) / sd) by (apply Qlt_shift_div_l; lra).
    assert (A : Qltb ((p - m) / sd) 0 = false) by (apply Qltb_false; lra).
    assert (B : Qltb 0 ((p - m) / sd) = true) by (apply Qltb_true; lra).
    rewrite A, B. repeat constructor.
  - assert (Z : (p - m) / sd < 0).
    { setoid_replace ((p - m) / sd) with (- ((m - p) / sd)) by (field; lra).
      assert (0 < (m - p) / sd) by (apply Qlt_shift_div_l; lra). lra. }
    assert (A : Qltb ((p - m) / sd) 0 = true) by (apply Qltb_true; lra).
    rewrite A. repeat constructor.
Qed.

Lemma mean_reversion_contrarian_witness :
  exists s,
    generate_mean_reversion_signal isqrt prices_jump 9 2 = Returns (Some s) /\
    Forall2 xyields (direction s) [-1].
Proof.
  eexists. split; [vm_compute; reflexivity|].
  refine (proj1 (mean_reversion_contrarian isqrt prices_jump 9 2 _
                   10 (Qsum (values prices_jump) / Qlen (values prices_jump))
                   (isqrt (Qsum (map (fun x =>
                       (x - Qsum (values prices_jump)
                            / Qlen (values prices_jump))
                       * (x - Qsum (values prices_jump)
                              / Qlen (values prices_jump)))
                      (values prices_jump))
                    / inject_Z (Z.of_nat (9 - 1))))
                   [1; 1; 1; 1; 1; 1; 1; 1] _ _ _ _ _) _);
    reflexivity.
Defined.
(** * Facts in binary64 *)

Import Binary64.
Local Close Scope Q_scope.
Local Open Scope float_scope.

(** ** NaN propagation *)

Lemma div_nan_r (x : float) : x / nan = nan.
Proof.
  apply Prim2SF_inj. rewrite FloatAxioms.div_spec.
  change (Prim2SF nan) with S754_nan.
  destruct (Prim2SF x); reflexivity.
Qed.

Lemma mul_nan_l (y : float) : nan * y = nan.
Proof.
  apply Prim2SF_inj. rewrite FloatAxioms.mul_spec. reflexivity.
Qed.

(** The deviation of an empty selection is NaN. *)
Lemma np_std_empty : np_std [] = nan.
Proof. reflexivity. Qed.

Lemma negative_entries_In (a : list float) (r : float) :
  In r (negative_entries a) <-> In r a /\ (r <? 0) = true.
Proof. exact (filter_In (fun x => x <? 0) r a). Qed.

(** ** Volatility regimes *)

(** The scenario of the specification in binary64: the percentile is
    interpolated here as well. *)
Example scenario1_percentile_binary64 :
  np_percentile Binary64.scenario1_returns ((1 - 0.8) * 100)
  = (-0.012000000000000002).
Proof. vm_compute. reflexivity. Qed.

(** C7, counterexample. Take the reference history 1% to 5%, whose 33rd and
    66th percentiles are 0.0232 and 0.0364, and its mean 0.03 as
    [historical_vol].  A window of deviation 0.04 is above the 66th
    percentile, yet [analyze_volatility] answers medium: its cut points
    are 0.015 and 0.045.  Nor does another summary of the history serve as
    [historical_vol]: with its mean, either percentile or any of its
    entries, the answer differs from the percentile tier on that window or
    on one of deviation 0.02. *)
Lemma analyze_volatility_ignores_percentiles :
  np_std (last_entries 20 swing) = 0.040000000000000001 /\
  np_percentile reference_history 33 = 0.023200000000000002 /\
  np_percentile reference_history 66 = 0.036400000000000002 /\
  volatility_tier_by_percentiles reference_history swing 20
  = high_volatility /\
  analyze_volatility (Binary64.np_mean reference_history) swing 20
  = medium_volatility /\
  Forall
    (fun historical_vol =>
       analyze_volatility historical_vol swing 20
       <> volatility_tier_by_percentiles reference_history swing 20 \/
       analyze_volatility historical_vol calm 20
       <> volatility_tier_by_percentiles reference_history calm 20)
    (Binary64.np_mean reference_history
     :: np_percentile reference_history 33
     :: np_percentile reference_history 66
     :: reference_history).
Proof.
  repeat split; try (vm_compute; reflexivity).
  repeat (apply Forall_cons;
          [vm_compute; solve [left; discriminate | right; discriminate]|]).
  apply Forall_nil.
Qed.

(** C7 (amended). The volatility tier compares the deviation of the last
    [window] returns with two multiples of the scalar [historical_vol]:
    above 1.5 times it the tier is high, otherwise below 0.5 times it the
    tier is low, otherwise medium. *)
Theorem analyze_volatility_cut_points
  (historical_vol : float) (returns : list float) (window : nat) :
  analyze_volatility historical_vol returns window =
  (if historical_vol * 1.5 <? np_std (last_entries window returns)
   then high_volatility
   else if np_std (last_entries window returns) <? historical_vol * 0.5
        then low_volatility
        else medium_volatility) /\
  (analyze_volatility historical_vol returns window = high_volatility <->
   (historical_vol * 1.5 <? np_std (last_entries window returns)) = true) /\
  (analyze_volatility historical_vol returns window = low_volatility <->
   (historical_vol * 1.5 <? np_std (last_entries window returns)) = false /\
   (np_std (last_entries window returns) <? historical_vol * 0.5) = true) /\
  (analyze_volatility historical_vol returns window = medium_volatility <->
   (historical_vol * 1.5 <? np_std (last_entries window returns)) = false /\
   (np_std (last_entries window returns) <? historical_vol * 0.5) = false).
Proof.
  unfold analyze_volatility.
  destruct (historical_vol * 1.5 <? np_std (last_entries window returns));
    destruct (np_std (last_entries window returns) <? historical_vol * 0.5);
    repeat split; intros; try discriminate; try reflexivity;
    match goal with H : _ /\ _ |- _ => destruct H; discriminate end.
Qed.

(** ** Risk-adjusted returns *)

(** C8, counterexample. Two gains and no loss: the downside selection is
    empty, its deviation is NaN and so is the Sortino ratio.  With a single
    loss the deviation is 0 and the ratio is infinite. *)
Lemma sortino_nan_without_downside :
  negative_entries two_gains = [] /\
  get_sortino_ratio (analyze_risk_adjusted_returns two_gains 0) = nan /\
  PrimFloat.is_nan
    (get_sortino_ratio (analyze_risk_adjusted_returns two_gains 0)) = true /\
  get_sortino_ratio (analyze_risk_adjusted_returns gain_and_loss 0)
  = infinity.
Proof. repeat split; vm_compute; reflexivity. Qed.

(** C8 (amended). The Sortino ratio divides the mean excess return by the
    deviation of the negative returns only; when no return is negative that
    deviation is NaN and the ratio is NaN, whatever the returns and the
    risk-free rate. *)
Theorem sortino_downside_deviation
  (returns : list float) (risk_free_rate : float) :
  get_sortino_ratio (analyze_risk_adjusted_returns returns risk_free_rate)
  = Binary64.np_mean (map (fun r => r - risk_free_rate) returns)
    / np_std (negative_entries returns) * PrimFloat.sqrt 252 /\
  (forall r, In r (negative_entries returns) <->
             In r returns /\ (r <? 0) = true) /\
  ((forall r, In r returns -> (r <? 0) = false) ->
   negative_entries returns = [] /\
   get_sortino_ratio (analyze_risk_adjusted_returns returns risk_free_rate)
   = nan).
Proof.
  split; [reflexivity|]. split; [apply negative_entries_In|].
  intros H.
  assert (E : negative_entries returns = []).
  { unfold negative_entries. induction returns as [|x t IH]; [reflexivity|].
    simpl. rewrite (H x (or_introl eq_refl)). apply IH.
    intros r Hr. apply H. now right. }
  split; [exact E|].
  unfold analyze_risk_adjusted_returns. cbn [get_sortino_ratio].
  rewrite E, np_std_empty, div_nan_r, mul_nan_l. reflexivity.
Qed.

(** ** Volatility regimes at the edges *)

Lemma ltb_nan_r (x : float) : (x <? nan) = false.
Proof.
  rewrite FloatAxioms.ltb_spec. change (Prim2SF nan) with S754_nan.
  destruct (Prim2SF x) as [| | |[] ? ?]; reflexivity.
Qed.

Lemma ltb_nan_l (x : float) : (nan <? x) = false.
Proof.
  rewrite FloatAxioms.ltb_spec. change (Prim2SF nan) with S754_nan.
  reflexivity.
Qed.

Lemma last_entries_whole (window : nat) (a : list float) :
  (length a <= window)%nat \/ window = 0%nat -> last_entries window a = a.
Proof.
  unfold last_entries. intros [H| ->]; [|reflexivity].
  destruct (window =? 0)%nat; [reflexivity|].
  replace (length a - window)%nat with 0%nat by lia. reflexivity.
Qed.

(** X26. When the deviation of the window is NaN, as it is on an empty
    return array, or when [historical_vol] is NaN, both comparisons fail
    and [analyze_volatility] answers medium volatility. *)
Theorem analyze_volatility_nan_is_medium
  (historical_vol : float) (returns : list float) (window : nat) :
  (np_std (last_entries window returns) = nan ->
   analyze_volatility historical_vol returns window = medium_volatility) /\
  analyze_volatility historical_vol [] window = medium_volatility /\
  analyze_volatility nan returns window = medium_volatility.
Proof.
  unfold analyze_volatility. repeat split.
  - intros ->. now rewrite ltb_nan_r, ltb_nan_l.
  - rewrite (last_entries_whole window []) by (left; simpl; lia).
    rewrite np_std_empty. now rewrite ltb_nan_r, ltb_nan_l.
  - now rewrite !mul_nan_l, ltb_nan_l, ltb_nan_r.
Qed.

(** X27. A window at least as long as the return array, and a window of
    0 as well, takes in the whole array: the tier is the one of the
    window [len(returns)]. *)
Theorem analyze_volatility_long_window
  (historical_vol : float) (returns : list float) (window : nat) :
  (length returns <= window)%nat \/ window = 0%nat ->
  analyze_volatility historical_vol returns window =
  analyze_volatility historical_vol returns (length returns).
Proof.
  intros H. unfold analyze_volatility.
  rewrite (last_entries_whole window returns H).
  rewrite (last_entries_whole (length returns) returns) by (left; lia).
  reflexivity.
Qed.

Lemma analyze_volatility_long_window_witness :
  analyze_volatility 0.03 swing 20 = analyze_volatility 0.03 swing 2 /\
  analyze_volatility 0.03 swing 0 = analyze_volatility 0.03 swing 2.
Proof.
  split.
  - apply (analyze_volatility_long_window 0.03 swing 20). left. simpl. lia.
  - apply (analyze_volatility_long_window 0.03 swing 0). right. reflexivity.
Defined.

(** ** Rounding at the cut points *)

(** X8. The 2% cut of [detect_trend] is taken on the rounded quotient, so
    the answer at the cut depends on the scale of the prices: a rise from
    10.0 to 10.2 gives a trend just below 0.02 and is ranging, the same
    rise from 100 to 102 is trending up. *)
Theorem detect_trend_cut_depends_on_scale :
  detect_trend [10; 10.2] 2 = Exact.Done Exact.ranging /\
  detect_trend [100; 102] 2 = Exact.Done Exact.trending_up /\
  ((10.2 - 10) / 10 <? 0.02) = true /\
  ((102 - 100) / 100 <? 0.02) = false.
Proof. repeat split; vm_compute; reflexivity. Qed.

(** X23. The risk limit holds only up to rounding: for a pair sold
    against a hedge of 0.4, with [max_position] 1 and the limit 0.02, the
    magnitudes of the sizes [calculate_position_sizes] returns add up to
    0.020000000000000004, above the limit. *)
Theorem position_sizes_total_overshoots :
  calculate_position_sizes sell_pair_directions 1 0.02
  = [-0.014285714285714287; 0.0057142857142857151] /\
  total_magnitude (calculate_position_sizes sell_pair_directions 1 0.02)
  = 0.020000000000000004 /\
  (0.02 <? total_magnitude
             (calculate_position_sizes sell_pair_directions 1 0.02)) = true.
Proof. repeat split; vm_compute; reflexivity. Qed.
